(** * SSTImap bootstrap: runtime gate, extension discovery, mode dispatch

    A shallow embedding of [sstimap.py].  The script is a sequence of
    effectful steps (console output, logging, dynamic imports, calls into
    the scan engine) that may raise; it is embedded in a state-and-exception
    monad over a [world] that holds the chronological trace of observable
    events and the two process-wide registries.  Code that lives in other
    modules of the project ([utils.config], [utils.cliparser],
    [core.checks], [core.interactive], the imported plugin units) is taken
    as a record of collaborators, [externals]. *)

From Stdlib Require Import ZArith Lia Ascii.
From stdpp Require Import base strings list gmap pretty.

Local Open Scope Z_scope.
Set Warnings "-register-all".

(** ** Python values and truthiness *)

Module Py.

Inductive value :=
| PNone
| PBool (b : bool)
| PInt (z : Z)
| PStr (s : string)
| PList (l : list value).

(** [bool(v)] *)
Definition truthy (v : value) : bool :=
  match v with
  | PNone => false
  | PBool b => b
  | PInt z => negb (z =? 0)
  | PStr s => negb (String.eqb s "")
  | PList l => match l with [] => false | _ :: _ => true end
  end.

(** [a or b]: the first operand when it is truthy, else the second *)
Definition or (a b : value) : value := if truthy a then a else b.

(** [v == s] for a string literal [s] *)
Definition eq_str (v : value) (s : string) : bool :=
  match v with
  | PStr s' => String.eqb s' s
  | _ => false
  end.

(** [s.startswith(p)] *)
Definition startswith (s p : string) : bool := String.prefix p s.

(** [s.endswith(suf)] *)
Fixpoint endswith (s suf : string) : bool :=
  if String.eqb s suf then true
  else match s with
       | EmptyString => false
       | String _ s' => endswith s' suf
       end.

(** [os.path.join(a, b)] of [posixpath]: an absolute [b] replaces [a]; a
    separator is put between them unless [a] is empty or ends with one *)
Definition path_join (a b : string) : string :=
  if startswith b "/" then b
  else if String.eqb a "" || endswith a "/" then a +:+ b
  else a +:+ "/" +:+ b.

(** [s[:-n]] for a positive literal [n] *)
Definition slice_to_neg (s : string) (n : nat) : string :=
  String.substring 0 (String.length s - n) s.

(** The argument of [SystemExit]: [None], an integer, or any other object,
    kept as the text [str] gives for it.  An integer literal stands for the
    integer code. *)
Inductive exit_code :=
| ExitNone
| ExitInt (z : Z)
| ExitObject (shown : string).

Coercion ExitInt : Z >-> exit_code.

(** Exceptions.  [KeyboardInterrupt], [SystemExit] and [GeneratorExit]
    derive from [BaseException] only; the others derive from [Exception]. *)
Inductive exn :=
| KeyboardInterrupt
| SystemExit (code : exit_code)
| GeneratorExit
| EOFError (msg : string)
| KeyError (key : string)
| FileNotFoundError (path : string)
| NotADirectoryError (path : string)
| OtherError (cls msg : string).

(** [isinstance(e, Exception)] *)
Definition is_Exception (e : exn) : bool :=
  match e with
  | KeyboardInterrupt | SystemExit _ | GeneratorExit => false
  | _ => true
  end.

Definition is_KeyboardInterrupt (e : exn) : bool :=
  match e with KeyboardInterrupt => true | _ => false end.

Definition is_EOFError (e : exn) : bool :=
  match e with EOFError _ => true | _ => false end.

(** [str(e)] *)
Definition str_exn (e : exn) : string :=
  match e with
  | KeyboardInterrupt | GeneratorExit => ""
  | SystemExit ExitNone => ""
  | SystemExit (ExitInt z) => pretty z
  | SystemExit (ExitObject shown) => shown
  | EOFError m => m
  | KeyError k => "'" +:+ k +:+ "'"
  | FileNotFoundError p => "[Errno 2] No such file or directory: '" +:+ p +:+ "'"
  | NotADirectoryError p => "[Errno 20] Not a directory: '" +:+ p +:+ "'"
  | OtherError _ m => m
  end.

End Py.

Import Py.

(** A configuration bundle: the [dict] returned by [config_args]. *)
Abbreviation config := (gmap string value).

(** [d.get(k)] *)
Definition dict_get (d : config) (k : string) : value := default PNone (d !! k).

(** [d.get(k, dflt)] *)
Definition dict_get_default (d : config) (k : string) (dflt : value) : value :=
  default dflt (d !! k).

(** ** The file system below [sys.path[0]] *)

Inductive node :=
| File
| Dir (entries : list (string * node)).

(** [entry.is_dir()] *)
Definition is_dir (n : node) : bool :=
  match n with Dir _ => true | File => false end.


Fixpoint assoc_find (name : string) (es : list (string * node)) : option node :=
  match es with
  | [] => None
  | (n, x) :: es' => if String.eqb n name then Some x else assoc_find name es'
  end.

(** Resolution of a path, given as its components below the root. *)
Fixpoint resolve (path : list string) (n : node) : option node :=
  match path with
  | [] => Some n
  | c :: path' =>
      match n with
      | File => None
      | Dir es =>
          match assoc_find c es with
          | Some n' => resolve path' n'
          | None => None
          end
      end
  end.

(** ** Observable events, registries and the world *)

Inductive event :=
| Print (s : string)
| Log (level : Z) (msg : string)
| Critical (msg : string)
| Debug (msg : string)
| ConfigArgs (args : config)
| SetFormatterColour (v : value)
| InvalidateCaches
| ImportModule (path : string)
| ModuleInfo (selector : value)
| Cmdloop (cfg : config)
| ScanWebsite (cfg : config).

(** [core.plugin.loaded_plugins] is a dict from category to the list of
    plugins registered under it (iteration order is insertion order) and
    [core.data_type.loaded_data_types] a dict from name to data type;
    plugins and data types are identified by their names. *)
Record registries := {
  loaded_plugins : list (string * list string);
  loaded_data_types : gmap string string
}.

Record world := {
  trace : list event;
  regs : registries
}.

Definition emit (e : event) (w : world) : world :=
  {| trace := trace w ++ [e]; regs := regs w |}.

(** ** The state-and-exception monad *)

Inductive result (A : Type) :=
| Ret (a : A)
| Raise (e : exn).
Arguments Ret {A} a.
Arguments Raise {A} e.

Definition M (A : Type) : Type := world -> result A * world.

Definition ret {A} (a : A) : M A := fun w => (Ret a, w).

Definition raise {A} (e : exn) : M A := fun w => (Raise e, w).

Definition bind {A B} (m : M A) (k : A -> M B) : M B :=
  fun w =>
    match m w with
    | (Ret a, w') => k a w'
    | (Raise e, w') => (Raise e, w')
    end.

(** stdpp's notations [x ← m; k] and [m ;; k] are used for [bind]. *)
#[global] Instance M_ret : MRet M := @ret.
#[global] Instance M_bind : MBind M := fun A B k m => bind m k.

Definition tell (e : event) : M unit := fun w => (Ret tt, emit e w).

(** Reading the registries (the module-level dicts). *)
Definition get_regs : M registries := fun w => (Ret (regs w), w).

(** [if c: body] *)
Definition when (c : bool) (body : M unit) : M unit :=
  if c then body else ret tt.

(** [for x in l: body(x)] *)
Fixpoint for_each {A} (l : list A) (body : A -> M unit) : M unit :=
  match l with
  | [] => ret tt
  | x :: l' => body x ;; for_each l' body
  end.

(** An external call whose only visible outcome is that it may raise. *)
Definition call (e : event) (outcome : option exn) : M unit :=
  tell e ;; match outcome with Some x => raise x | None => ret tt end.

(** ** Collaborators outside [sstimap.py] *)

Record externals := {
  sys_path0 : string;                 (* sys.path[0] *)
  version_info : Z * Z;               (* sys.version_info.major, .minor *)
  fs : node;                          (* the directory sys.path[0] *)
  cliparser_options : config;         (* vars(cliparser.options) *)
  cliparser_banner : string;          (* cliparser.banner() *)
  no_colour : string -> string;       (* utils.loggers.no_colour *)
  config_args : config -> config;     (* utils.config.config_args *)
  version : value;                    (* utils.config.version *)
  (* importing a unit runs its self-registration and may raise *)
  import_module : string -> registries -> registries * option exn;
  module_info : value -> registries -> option exn;    (* checks.module_info *)
  shell_cmdloop : config -> registries -> option exn; (* InteractiveShell(..).cmdloop() *)
  scan_website : config -> registries -> option exn;  (* checks.scan_website *)
  format_exc : exn -> string          (* traceback.format_exc() *)
}.

Definition ESC : string := String (Ascii.ascii_of_nat 27) "".
Definition NL : string := String (Ascii.ascii_of_nat 10) "".

Definition usage_hint_message : string :=
  "SSTImap requires at least one of the following options:" +:+ NL +:+
  "  - Target URL (-u, --url)" +:+ NL +:+
  "  - Load URLs from file (--load-urls)" +:+ NL +:+
  "  - Load forms from file (--load-forms)" +:+ NL +:+
  "  - Interactive mode (-i, --interactive)" +:+ NL +:+
  "  - Specific module (--module)" +:+ NL +:+
  "Use --help for more details.".

(** [sep.join(parts)] *)
Fixpoint join (sep : string) (parts : list string) : string :=
  match parts with
  | [] => ""
  | [p] => p
  | p :: ps => p +:+ sep +:+ join sep ps
  end.

Section Program.

Variable X : externals.

Definition print (s : string) : M unit := tell (Print s).
Definition log_log (level : Z) (msg : string) : M unit := tell (Log level msg).
Definition log_critical (msg : string) : M unit := tell (Critical msg).
Definition log_debug (msg : string) : M unit := tell (Debug msg).

(** [sys.exit(code)] *)
Definition sys_exit {A} (code : exit_code) : M A := raise (SystemExit code).

(** [d[k]] *)
Definition subscript (d : config) (k : string) : M value :=
  match d !! k with
  | Some v => ret v
  | None => raise (KeyError k)
  end.

(** [os.path.exists(p)], [p] given by its components below [sys.path[0]] *)
Definition path_exists (p : list string) : bool :=
  match resolve p (fs X) with Some _ => true | None => false end.

(** [list(os.scandir(p))]; [shown] is the path as the error message has it *)
Definition scandir (p : list string) (shown : string) : M (list (string * node)) :=
  match resolve p (fs X) with
  | Some (Dir es) => ret es
  | Some File => raise (NotADirectoryError shown)
  | None => raise (FileNotFoundError shown)
  end.

(** [importlib.import_module(path)] *)
Definition importlib_import_module (path : string) : M unit :=
  fun w =>
    let w1 := emit (ImportModule path) w in
    let '(r, o) := import_module X path (regs w1) in
    let w2 := {| trace := trace w1; regs := r |} in
    match o with
    | Some e => (Raise e, w2)
    | None => (Ret tt, w2)
    end.

Definition check_python_version : M unit :=
  let major_version := fst (version_info X) in
  let minor_version := snd (version_info X) in
  let version_string := pretty major_version +:+ "." +:+ pretty minor_version in
  when (negb (major_version =? 3))
    (print (ESC +:+ "[91m[!]" +:+ ESC +:+
            "[0m SSTImap requires Python 3.6 or above. Detected version: " +:+
            version_string) ;;
     sys_exit 1) ;;
  when (minor_version <? 6)
    (print (ESC +:+ "[91m[!]" +:+ ESC +:+ "[0m Python " +:+ version_string +:+
            " is not supported. Please upgrade to Python 3.6 or higher.") ;;
     sys_exit 1) ;;
  when (13 <? minor_version)
    (print (ESC +:+ "[33m[!]" +:+ ESC +:+ "[0m SSTImap was not tested with Python " +:+
            version_string +:+ ". Proceeding with caution...")).

Definition display_welcome_banner (colour_mode : value) : M unit :=
  tell (SetFormatterColour colour_mode) ;;
  let banner_text := cliparser_banner X in
  if truthy colour_mode then print banner_text
  else print (no_colour X banner_text).

Definition scan_plugin_folder : M (list (string * node)) :=
  let plugin_directory := sys_path0 X +:+ "/plugins" in
  if negb (path_exists ["plugins"]) then
    print ("[!] Plugin directory not found: " +:+ plugin_directory) ;;
    ret []
  else
    group_list ← scandir ["plugins"] plugin_directory;
    let valid_groups := filter (fun group => is_dir (snd group)) group_list in
    ret valid_groups.

Definition import_plugins : M unit :=
  tell InvalidateCaches ;;
  plugin_groups ← scan_plugin_folder;
  for_each plugin_groups (fun group =>
    let group_name := fst group in
    let group_path := path_join (path_join (sys_path0 X) "plugins") group_name in
    module_entries ← scandir ["plugins"; group_name] group_path;
    for_each module_entries (fun entry =>
      let module_name := fst entry in
      when (endswith module_name ".py" && negb (startswith module_name "_"))
        (let import_path :=
           "plugins." +:+ group_name +:+ "." +:+ slice_to_neg module_name 3 in
         importlib_import_module import_path))).

Definition import_data_types : M unit :=
  tell InvalidateCaches ;;
  let data_types_path := path_join (sys_path0 X) "data_types" in
  if negb (path_exists ["data_types"]) then
    print "[!] data_types directory missing!"
  else
    files ← scandir ["data_types"] data_types_path;
    for_each files (fun file_entry =>
      let file_name := fst file_entry in
      when (endswith file_name ".py" && negb (startswith file_name "_"))
        (let module_name := slice_to_neg file_name 3 in
         let full_module_path := "data_types." +:+ module_name in
         importlib_import_module full_module_path)).

Definition print_plugin_summary : M unit :=
  r ← get_regs;
  let plugin_summary :=
    map (fun item => fst item +:+ ": " +:+ pretty (length (snd item)))
        (loaded_plugins r) in
  let summary_str := join "; " plugin_summary in
  log_log 26 ("Loaded plugins by categories: " +:+ summary_str).

Definition print_data_type_summary : M unit :=
  r ← get_regs;
  let count := size (loaded_data_types r) in
  log_log 26 ("Loaded request body types: " +:+ pretty count +:+ NL).

Definition show_usage_hint : M unit := log_log 22 usage_hint_message.

Definition checks_module_info (selector : value) : M unit :=
  r ← get_regs;
  call (ModuleInfo selector) (module_info X selector r).

Definition handle_module_option (module_option : value) : M unit :=
  if eq_str module_option "list" then checks_module_info (PStr "")
  else checks_module_info module_option.

Definition start_interactive_shell (configured_args : config) : M unit :=
  log_log 23 "Starting SSTImap in interactive mode. Type 'help' for available commands." ;;
  r ← get_regs;
  call (Cmdloop configured_args) (shell_cmdloop X configured_args r).

Definition launch_scan (configured_args : config) : M unit :=
  log_log 23 "Starting SSTI scan using predefined configuration..." ;;
  r ← get_regs;
  call (ScanWebsite configured_args) (scan_website X configured_args r).

(** Step 6 of [main]: the route logic. *)
Definition route (configured_args : config) : M unit :=
  let no_input_provided :=
    negb (truthy
      (or (dict_get configured_args "url")
      (or (dict_get configured_args "interactive")
      (or (dict_get configured_args "load_urls")
      (or (dict_get configured_args "load_forms")
          (dict_get configured_args "module")))))) in
  if no_input_provided then
    show_usage_hint
  else if truthy (dict_get configured_args "module") then
    selected_module ← subscript configured_args "module";
    handle_module_option selected_module
  else if truthy (dict_get configured_args "interactive") then
    start_interactive_shell configured_args
  else
    launch_scan configured_args.

(** Steps 1 to 4 of [main]: the configuration bundle and the banner. *)
Definition assemble : M config :=
  let args_dict := cliparser_options X in
  tell (ConfigArgs args_dict) ;;
  let configured_args := config_args X args_dict in
  let configured_args := <["version" := version X]> configured_args in
  let colour_enabled := dict_get_default configured_args "colour" (PBool true) in
  display_welcome_banner colour_enabled ;;
  ret configured_args.

(** Step 5 of [main]: plugin and data type loading. *)
Definition discover : M unit :=
  import_plugins ;;
  print_plugin_summary ;;
  import_data_types ;;
  print_data_type_summary.

Definition main : M unit :=
  configured_args ← assemble;
  discover ;;
  route configured_args.

(** The body of the top-level [try]. *)
Definition guarded : M unit := check_python_version ;; main.

(** [try: body / except ...], the first matching clause handles the
    exception; with no matching clause it propagates. *)
Definition try_except (body : M unit) (handlers : exn -> option (M unit)) : M unit :=
  fun w =>
    match body w with
    | (Ret a, w') => (Ret a, w')
    | (Raise e, w') =>
        match handlers e with
        | Some h => h w'
        | None => (Raise e, w')
        end
    end.

(** The [if __name__ == '__main__'] block. *)
Definition dunder_main : M unit :=
  try_except guarded (fun err =>
    if is_KeyboardInterrupt err then
      Some (print "" ;; log_log 22 "User interruption. Exiting SSTImap...")
    else if is_EOFError err then
      Some (print "" ;; log_log 22 "Received EOF. Exiting SSTImap...")
    else if is_Exception err then
      Some (log_critical "An unexpected error occurred!" ;;
            log_critical ("Error: " +:+ str_exn err) ;;
            log_debug (format_exc X err) ;;
            raise err)
    else None).

End Program.

(** The status of a process that ends on an uncaught [SystemExit], on a
    POSIX system with a 64-bit [long]: 0 for [None]; for an integer the low
    eight bits of it, or 255 when it does not fit a [long]; 1 for any other
    object (which is printed). *)
Definition exit_code_status (code : exit_code) : Z :=
  match code with
  | ExitNone => 0
  | ExitInt z =>
      if (- 2 ^ 63 <=? z) && (z <? 2 ^ 63) then z mod 256 else 255
  | ExitObject _ => 1
  end.

(** The status the interpreter exits with: 0 after a normal end, the status
    of an uncaught [SystemExit], 1 after any other uncaught exception. *)
Definition exit_status (r : result unit) : Z :=
  match r with
  | Ret _ => 0
  | Raise (SystemExit code) => exit_code_status code
  | Raise _ => 1
  end.

Definition initial_world (r : registries) : world := {| trace := []; regs := r |}.

(** ** Execution modes *)

Inductive ExecutionMode :=
| UsageHint
| ModuleInfoMode (selector : value)
| Interactive
| Scan.

(** The selection rule in the words of the specification: nothing set,
    then [module], then [interactive], then a scan. *)
Definition select_mode_spec (cfg : config) : ExecutionMode :=
  let set k := truthy (dict_get cfg k) in
  if negb (set "url") && negb (set "load_urls") && negb (set "load_forms")
     && negb (set "interactive") && negb (set "module")
  then UsageHint
  else if set "module" then ModuleInfoMode (dict_get cfg "module")
  else if set "interactive" then Interactive
  else Scan.

(** What the script runs once a mode is chosen. *)
Definition enter_mode (X : externals) (cfg : config) (m : ExecutionMode) : M unit :=
  match m with
  | UsageHint => show_usage_hint
  | ModuleInfoMode selector => handle_module_option X selector
  | Interactive => start_interactive_shell X cfg
  | Scan => launch_scan X cfg
  end.

(** The five fields the route logic reads. *)
Definition mode_fields : list string :=
  ["url"; "load_urls"; "load_forms"; "interactive"; "module"].

(** No collaborator entered by the route logic raises. *)
Definition collaborators_return (X : externals) : Prop :=
  (forall v r, module_info X v r = None) /\
  (forall c r, shell_cmdloop X c r = None) /\
  (forall c r, scan_website X c r = None).

(** ** Definitions used to state the properties *)

(** The filter both loaders apply to an entry's name. *)
Definition loadable (name : string) : bool :=
  endswith name ".py" && negb (startswith name "_").

(** The import paths asked for, in order, for the entries of one directory:
    [path_of] turns the name of a selected entry into its import path. *)
Definition unit_paths (path_of : string -> string) (entries : list (string * node))
    : list string :=
  map (fun entry => path_of (fst entry))
      (filter (fun entry => loadable (fst entry)) entries).

Definition data_type_path (name : string) : string :=
  "data_types." +:+ slice_to_neg name 3.

Definition plugin_path (group_name name : string) : string :=
  "plugins." +:+ group_name +:+ "." +:+ slice_to_neg name 3.

(** The imports of one category directory, found again by its path. *)
Definition plugin_group_events (X : externals) (group : string * node) : list event :=
  match resolve ["plugins"; fst group] (fs X) with
  | Some (Dir es) => map ImportModule (unit_paths (plugin_path (fst group)) es)
  | _ => []
  end.

Definition plugin_events (X : externals) (groups : list (string * node)) : list event :=
  concat (map (plugin_group_events X) (filter (fun group => is_dir (snd group)) groups)).

(** One entry of the plugin summary. *)
Definition plugin_fragment (item : string * list string) : string :=
  fst item +:+ ": " +:+ pretty (length (snd item)).

(** No character of [s] is a semicolon. *)
Fixpoint semicolon_free (s : string) : bool :=
  match s with
  | EmptyString => true
  | String c s' => negb (Ascii.eqb c ";"%char) && semicolon_free s'
  end.

(** [s.split("; ")]: the pieces of [s] between the occurrences of "; ",
    found from left to right. *)
Fixpoint split_semi (s : string) : list string :=
  match s with
  | EmptyString => [EmptyString]
  | String c s' =>
      let extend :=
        match split_semi s' with
        | [] => [String c EmptyString]
        | piece :: pieces => String c piece :: pieces
        end in
      if Ascii.eqb c ";"%char then
        match s' with
        | String d rest =>
            if Ascii.eqb d " "%char then EmptyString :: split_semi rest else extend
        | EmptyString => extend
        end
      else extend
  end.



(** The messages of the runtime gate. *)
Definition version_string (X : externals) : string :=
  pretty (fst (version_info X)) +:+ "." +:+ pretty (snd (version_info X)).

Definition unsupported_major_message (X : externals) : string :=
  ESC +:+ "[91m[!]" +:+ ESC +:+
  "[0m SSTImap requires Python 3.6 or above. Detected version: " +:+
  version_string X.

Definition unsupported_minor_message (X : externals) : string :=
  ESC +:+ "[91m[!]" +:+ ESC +:+ "[0m Python " +:+ version_string X +:+
  " is not supported. Please upgrade to Python 3.6 or higher.".

Definition untested_message (X : externals) : string :=
  ESC +:+ "[33m[!]" +:+ ESC +:+ "[0m SSTImap was not tested with Python " +:+
  version_string X +:+ ". Proceeding with caution...".

(** [m] appends to the trace only events that satisfy [P]. *)
Definition emits {A} (P : event -> Prop) (m : M A) : Prop :=
  forall w, exists t, trace (snd (m w)) = trace w ++ t /\ Forall P t.

(** [m] appends the events [evs] in order: all of them when it returns,
    a prefix of them when it raises. *)
Definition traces {A} (m : M A) (evs : list event) : Prop :=
  forall w,
    (exists n, (n <= length evs)%nat /\ trace (snd (m w)) = trace w ++ take n evs) /\
    (forall a, fst (m w) = Ret a -> trace (snd (m w)) = trace w ++ evs).

(** Events of the discovery step, and events by which a mode is entered. *)
Definition is_discovery (e : event) : bool :=
  match e with
  | InvalidateCaches | ImportModule _ => true
  | Log level _ => level =? 26
  | _ => false
  end.

Definition is_dispatch (e : event) : bool :=
  match e with
  | ModuleInfo _ | Cmdloop _ | ScanWebsite _ => true
  | Log level msg => (level =? 23) || ((level =? 22) && String.eqb msg usage_hint_message)
  | _ => false
  end.

(** Events that belong neither to discovery nor to the entry of a mode. *)
Definition quiet_event (e : event) : Prop :=
  is_discovery e = false /\ is_dispatch e = false.

(** The registries after the imports of [paths], one after the other. *)
Definition import_effects (X : externals) (paths : list string) (r : registries)
    : registries :=
  foldl (fun r p => fst (import_module X p r)) r paths.

(** [m] changes the registries by the imports of [paths] and by nothing
    else: of all of them when it returns, of an initial part when it raises. *)
Definition registers {A} (X : externals) (m : M A) (paths : list string) : Prop :=
  forall w,
    exists n, (n <= length paths)%nat /\
      regs (snd (m w)) = import_effects X (take n paths) (regs w) /\
      (forall a, fst (m w) = Ret a -> n = length paths).

(** The import paths of the plugin loader: category by category. *)
Definition plugin_unit_paths (X : externals) (groups : list (string * node))
    : list string :=
  concat (map (fun group =>
                 match resolve ["plugins"; fst group] (fs X) with
                 | Some (Dir es) => unit_paths (plugin_path (fst group)) es
                 | _ => []
                 end)
              (filter (fun group => is_dir (snd group)) groups)).

(** The import paths of one entry of the plugin root, read off the entry
    itself: the selected entries of a directory, nothing for a file. *)
Definition category_paths (group : string * node) : list string :=
  match snd group with
  | Dir es => unit_paths (plugin_path (fst group)) es
  | File => []
  end.

Definition plugin_tree_paths (groups : list (string * node)) : list string :=
  concat (map category_paths groups).

(** The events of the route logic in each mode, and what it raises. *)
Definition mode_events (cfg : config) (m : ExecutionMode) : list event :=
  match m with
  | UsageHint => [Log 22 usage_hint_message]
  | ModuleInfoMode selector =>
      [ModuleInfo (if eq_str selector "list" then PStr "" else selector)]
  | Interactive =>
      [Log 23 "Starting SSTImap in interactive mode. Type 'help' for available commands.";
       Cmdloop cfg]
  | Scan =>
      [Log 23 "Starting SSTI scan using predefined configuration..."; ScanWebsite cfg]
  end.

Definition mode_outcome (X : externals) (cfg : config) (m : ExecutionMode)
    (r : registries) : option exn :=
  match m with
  | UsageHint => None
  | ModuleInfoMode selector =>
      module_info X (if eq_str selector "list" then PStr "" else selector) r
  | Interactive => shell_cmdloop X cfg r
  | Scan => scan_website X cfg r
  end.

(** Calls into the module-info reporter, the shell or the scan engine. *)
Definition is_collaborator_call (e : event) : bool :=
  match e with
  | ModuleInfo _ | Cmdloop _ | ScanWebsite _ => true
  | _ => false
  end.

(** The bundle [main] works with: the assembler's output with [version] set. *)
Definition assembled (X : externals) : config :=
  <["version" := version X]> (config_args X (cliparser_options X)).

(** The banner line as [display_welcome_banner] prints it for [colour_mode]. *)
Definition banner_line (X : externals) (colour_mode : value) : string :=
  if truthy colour_mode then cliparser_banner X else no_colour X (cliparser_banner X).

(** ** Sample environments *)

Module Sample.

Definition tree : node :=
  Dir [ ("plugins",
          Dir [ ("engines", Dir [ ("jinja2.py", File); ("_base.py", File);
                                  ("notes.txt", File); ("mako.py", File) ]);
                ("README.md", File);
                ("languages", Dir [ ("__init__.py", File); ("php.py", File) ]) ]);
        ("data_types", Dir [ ("json.py", File); ("_helpers.py", File);
                             ("form.py", File); ("x.pyc", File) ]);
        ("sstimap.py", File) ].

(** A unit under [plugins/] registers itself under the category "all",
    a unit under [data_types/] under its own path. *)
Definition register (path : string) (r : registries) : registries :=
  if startswith path "plugins." then
    {| loaded_plugins :=
         match loaded_plugins r with
         | [] => [("all", [path])]
         | (c, l) :: rest => (c, l ++ [path]) :: rest
         end;
       loaded_data_types := loaded_data_types r |}
  else
    {| loaded_plugins := loaded_plugins r;
       loaded_data_types := <[path := path]> (loaded_data_types r) |}.

Definition env (ver : Z * Z) (t : node) (opts : config) : externals :=
  {| sys_path0 := "/opt/sstimap";
     version_info := ver;
     fs := t;
     cliparser_options := opts;
     cliparser_banner := "SSTImap";
     no_colour := fun s => s;
     config_args := fun a => a;
     version := PStr "1.2";
     import_module := fun p r => (register p r, None);
     module_info := fun _ _ => None;
     shell_cmdloop := fun _ _ => None;
     scan_website := fun _ _ => None;
     format_exc := fun e => "Traceback (most recent call last): " +:+ str_exn e |}.

(** As [env], but importing the unit [bad] raises [e] (after the unit has
    registered itself), and the scan engine raises [e] too. *)
Definition failing_env (ver : Z * Z) (t : node) (opts : config)
    (bad : string) (e : exn) : externals :=
  {| sys_path0 := "/opt/sstimap";
     version_info := ver;
     fs := t;
     cliparser_options := opts;
     cliparser_banner := "SSTImap";
     no_colour := fun s => s;
     config_args := fun a => a;
     version := PStr "1.2";
     import_module := fun p r =>
       (register p r, if String.eqb p bad then Some e else None);
     module_info := fun _ _ => None;
     shell_cmdloop := fun _ _ => None;
     scan_website := fun _ _ => Some e;
     format_exc := fun e => "Traceback (most recent call last): " +:+ str_exn e |}.

(** As [env], but the import of [bad] raises [e] before the unit has
    registered anything (a unit that cannot be found or read). *)
Definition unloadable_env (ver : Z * Z) (t : node) (opts : config)
    (bad : string) (e : exn) : externals :=
  {| sys_path0 := "/opt/sstimap";
     version_info := ver;
     fs := t;
     cliparser_options := opts;
     cliparser_banner := "SSTImap";
     no_colour := fun s => s;
     config_args := fun a => a;
     version := PStr "1.2";
     import_module := fun p r =>
       if String.eqb p bad then (r, Some e) else (register p r, None);
     module_info := fun _ _ => None;
     shell_cmdloop := fun _ _ => None;
     scan_website := fun _ _ => None;
     format_exc := fun e => "Traceback (most recent call last): " +:+ str_exn e |}.

Definition no_regs : registries :=
  {| loaded_plugins := []; loaded_data_types := ∅ |}.

Definition url_only : config := {[ "url" := PStr "http://x" ]}.

End Sample.

(** ** Strings *)

Lemma append_empty_l (s : string) : "" +:+ s = s.
Proof. reflexivity. Qed.

Lemma append_String_l (a : Ascii.ascii) (s t : string) :
  String a s +:+ t = String a (s +:+ t).
Proof. reflexivity. Qed.

Ltac norm_append := rewrite ?append_empty_l, ?append_String_l in *.

Lemma endswith_unfold (s suf : string) :
  endswith s suf =
  if String.eqb s suf then true
  else match s with
       | EmptyString => false
       | String _ s' => endswith s' suf
       end.
Proof. by destruct s. Qed.

Lemma endswith_iff (s suf : string) :
  endswith s suf = true <-> exists stem, s = stem +:+ suf.
Proof.
  induction s as [|a s IH]; rewrite endswith_unfold.
  - destruct (String.eqb_spec "" suf) as [<-|Hne].
    + split; [exists ""; reflexivity | reflexivity].
    + split; [discriminate|].
      intros [[|b stem] H]; norm_append; congruence.
  - destruct (String.eqb_spec (String a s) suf) as [<-|Hne].
    + split; [exists ""; reflexivity | reflexivity].
    + rewrite IH. split.
      * intros [stem ->]. exists (String a stem). reflexivity.
      * intros [[|b stem] H]; norm_append; [congruence|].
        simplify_eq. by exists stem.
Qed.

Lemma startswith_iff (s p : string) :
  startswith s p = true <-> exists rest, s = p +:+ rest.
Proof.
  unfold startswith. revert s.
  induction p as [|a p IH]; intros s.
  - split; [exists s; reflexivity | by destruct s].
  - destruct s as [|b s]; [split; [discriminate | intros [? ?]; discriminate]|].
    simpl. destruct (Ascii.ascii_dec a b) as [<-|Hne].
    + rewrite IH. split; intros [rest H]; exists rest; norm_append; congruence.
    + split; [discriminate | intros [rest H]; norm_append; congruence].
Qed.

Lemma substring_append_l (a b : string) :
  String.substring 0 (String.length a) (a +:+ b) = a.
Proof.
  induction a as [|c a IH]; norm_append; simpl.
  - by destruct b.
  - by rewrite IH.
Qed.

Lemma length_append (a b : string) :
  String.length (a +:+ b) = (String.length a + String.length b)%nat.
Proof.
  induction a as [|c a IH]; norm_append; simpl; [reflexivity | by rewrite IH].
Qed.

Lemma slice_to_neg_py (stem : string) : slice_to_neg (stem +:+ ".py") 3 = stem.
Proof.
  unfold slice_to_neg. rewrite length_append.
  replace (String.length stem + String.length ".py" - 3)%nat
    with (String.length stem) by (simpl; lia).
  apply substring_append_l.
Qed.

Lemma loadable_iff (name : string) :
  loadable name = true <->
  (exists stem, name = stem +:+ ".py") /\ ~ (exists rest, name = "_" +:+ rest).
Proof.
  unfold loadable.
  rewrite andb_true_iff, negb_true_iff, <- not_true_iff_false.
  by rewrite endswith_iff, startswith_iff.
Qed.

(** ** Mode selection *)

Lemma subscript_truthy (cfg : config) (k : string) :
  truthy (dict_get cfg k) = true -> subscript cfg k = ret (dict_get cfg k).
Proof.
  unfold subscript, dict_get. by destruct (cfg !! k).
Qed.

Lemma route_enter_mode (X : externals) (cfg : config) :
  route X cfg = enter_mode X cfg (select_mode_spec cfg).
Proof.
  unfold route, select_mode_spec, Py.or.
  destruct (truthy (dict_get cfg "module")) eqn:Hm;
    [rewrite (subscript_truthy _ _ Hm)|];
    destruct (truthy (dict_get cfg "url")) eqn:Hu,
      (truthy (dict_get cfg "interactive")) eqn:Hi,
      (truthy (dict_get cfg "load_urls")) eqn:Hl,
      (truthy (dict_get cfg "load_forms")) eqn:Hf;
    simpl; rewrite ?Hu, ?Hi, ?Hl, ?Hf, ?Hm; reflexivity.
Qed.

Lemma select_mode_spec_ext (cfg cfg' : config) :
  (forall k, k ∈ mode_fields -> cfg !! k = cfg' !! k) ->
  select_mode_spec cfg = select_mode_spec cfg'.
Proof.
  intros H. unfold select_mode_spec, dict_get.
  rewrite !(H "url"), !(H "load_urls"), !(H "load_forms"),
    !(H "interactive"), !(H "module");
    [reflexivity | unfold mode_fields; set_solver ..].
Qed.

(** C1. Mode selection is a total, deterministic function of the five
    fields [url], [load_urls], [load_forms], [interactive], [module]: for
    every collaborator record and every configuration bundle the route
    logic of [main] does exactly what entering [select_mode_spec cfg]
    does, where [select_mode_spec] gives [UsageHint] when all five are
    falsy, else [ModuleInfoMode] when [module] is truthy, else
    [Interactive] when [interactive] is truthy, else [Scan]; and two bundles
    that agree on the five fields select the same mode. *)
Theorem mode_selection_priority (X : externals) (cfg : config) :
  route X cfg = enter_mode X cfg (select_mode_spec cfg) /\
  (forall cfg' : config,
     (forall k, k ∈ mode_fields -> cfg !! k = cfg' !! k) ->
     select_mode_spec cfg' = select_mode_spec cfg).
Proof.
  split; [apply route_enter_mode|].
  intros cfg' H. symmetry. by apply select_mode_spec_ext.
Qed.

Lemma eq_str_iff (v : value) (s : string) : eq_str v s = true <-> v = PStr s.
Proof.
  destruct v; simpl; try (split; [discriminate | congruence]).
  rewrite String.eqb_eq. split; congruence.
Qed.

Lemma checks_module_info_run (X : externals) (v : value) (w : world) :
  checks_module_info X v w =
  (match module_info X v (regs w) with Some e => Raise e | None => Ret tt end,
   emit (ModuleInfo v) w).
Proof.
  unfold checks_module_info, call, mbind, M_bind, bind, get_regs, tell.
  by destruct (module_info X v (regs w)).
Qed.

Lemma handle_module_option_trace (X : externals) (v : value) (w : world) :
  trace (snd (handle_module_option X v w)) =
  trace w ++ [ModuleInfo (if eq_str v "list" then PStr "" else v)].
Proof.
  unfold handle_module_option.
  by destruct (eq_str v "list"); rewrite checks_module_info_run.
Qed.

(** C5. When [module] is truthy the route logic hands the [module] value to
    [handle_module_option]; the value "list" makes it call the module-info
    reporter with the empty selector (all modules), and every other value is
    passed to the reporter unchanged. *)
Theorem module_selector_passed (X : externals) (cfg : config) (w : world) :
  truthy (dict_get cfg "module") = true ->
  let selector := dict_get cfg "module" in
  route X cfg = handle_module_option X selector /\
  handle_module_option X (PStr "list") = checks_module_info X (PStr "") /\
  (selector <> PStr "list" ->
   handle_module_option X selector = checks_module_info X selector) /\
  trace (snd (route X cfg w)) =
    trace w ++ [ModuleInfo (if eq_str selector "list" then PStr "" else selector)].
Proof.
  intros Hm selector.
  assert (Hr : route X cfg = handle_module_option X selector).
  { rewrite route_enter_mode. unfold select_mode_spec. rewrite Hm.
    by rewrite !andb_false_r. }
  split; [exact Hr|]. split; [reflexivity|]. split.
  - intros Hne. unfold handle_module_option.
    destruct (eq_str selector "list") eqn:He; [|reflexivity].
    by apply eq_str_iff in He.
  - rewrite Hr. apply handle_module_option_trace.
Qed.

Lemma module_selector_passed_witness :
  let cfg : config := {[ "module" := PStr "list" ]} in
  let X := Sample.env (3, 12) Sample.tree cfg in
  trace (snd (route X cfg (initial_world Sample.no_regs))) = [ModuleInfo (PStr "")].
Proof.
  intros cfg X.
  exact (proj2 (proj2 (proj2
    (module_selector_passed X cfg (initial_world Sample.no_regs) eq_refl)))).
Defined.

Lemma dict_get_insert_None (cfg : config) (k k' : string) :
  cfg !! k = None -> dict_get (<[k := PNone]> cfg) k' = dict_get cfg k'.
Proof.
  intros H. unfold dict_get.
  destruct (decide (k = k')) as [<-|Hne].
  - by rewrite lookup_insert_eq, H.
  - by rewrite lookup_insert_ne.
Qed.

Lemma enter_mode_returns (X : externals) (cfg : config) (m : ExecutionMode) (w : world) :
  collaborators_return X -> fst (enter_mode X cfg m w) = Ret tt.
Proof.
  intros (Hmi & Hsh & Hsc).
  destruct m as [|v| |]; simpl; try reflexivity.
  - unfold handle_module_option.
    destruct (eq_str v "list"); rewrite checks_module_info_run; simpl;
      by rewrite Hmi.
  - unfold start_interactive_shell, call, mbind, M_bind, bind, get_regs, log_log, tell.
    simpl. by rewrite Hsh.
  - unfold launch_scan, call, mbind, M_bind, bind, get_regs, log_log, tell.
    simpl. by rewrite Hsc.
Qed.

(** C9. The route logic is total over configuration mappings: whatever
    keys the mapping has or lacks, when the collaborators it enters return
    the route logic returns normally; the direct read [cfg["module"]]
    succeeds whenever [module] was found truthy; and a key that is absent
    counts as falsy, the route logic entering the same mode when the key is
    absent and when it is present with the value [None]. *)
Theorem dispatch_total (X : externals) (cfg : config) (w : world) :
  collaborators_return X ->
  fst (route X cfg w) = Ret tt /\
  (truthy (dict_get cfg "module") = true ->
   subscript cfg "module" = ret (dict_get cfg "module")) /\
  (forall k, cfg !! k = None ->
     truthy (dict_get cfg k) = false /\
     route X (<[k := PNone]> cfg) =
       enter_mode X (<[k := PNone]> cfg) (select_mode_spec cfg)).
Proof.
  intros HX. split; [|split].
  - rewrite route_enter_mode. by apply enter_mode_returns.
  - apply subscript_truthy.
  - intros k Hk. split.
    + unfold dict_get. by rewrite Hk.
    + rewrite route_enter_mode. f_equal.
      unfold select_mode_spec. by rewrite !(dict_get_insert_None _ _ _ Hk).
Qed.

Lemma sample_collaborators_return (ver : Z * Z) (t : node) (opts : config) :
  collaborators_return (Sample.env ver t opts).
Proof. by repeat split. Qed.

Lemma dispatch_total_witness :
  fst (route (Sample.env (3, 12) Sample.tree ∅) ∅ (initial_world Sample.no_regs)) = Ret tt.
Proof.
  exact (proj1 (dispatch_total (Sample.env (3, 12) Sample.tree ∅) ∅
                  (initial_world Sample.no_regs)
                  (sample_collaborators_return _ _ _))).
Defined.

(** ** The runtime gate *)

Lemma check_python_version_run (X : externals) (w : world) :
  check_python_version X w =
  if negb (fst (version_info X) =? 3) then
    (Raise (SystemExit 1), emit (Print (unsupported_major_message X)) w)
  else if snd (version_info X) <? 6 then
    (Raise (SystemExit 1), emit (Print (unsupported_minor_message X)) w)
  else if 13 <? snd (version_info X) then
    (Ret tt, emit (Print (untested_message X)) w)
  else (Ret tt, w).
Proof.
  unfold check_python_version, when, mbind, M_bind, bind, print, tell, sys_exit, raise, ret.
  destruct (fst (version_info X) =? 3); simpl; [|reflexivity].
  destruct (snd (version_info X) <? 6); simpl; [reflexivity|].
  destruct (13 <? snd (version_info X)); reflexivity.
Qed.

(** A [SystemExit] leaving the gate is caught by no clause of the top-level
    [try] and ends the process. *)
Lemma dunder_main_gate_exit (X : externals) (w w' : world) (code : Z) :
  check_python_version X w = (Raise (SystemExit code), w') ->
  dunder_main X w = (Raise (SystemExit code), w').
Proof.
  intros H. unfold dunder_main, try_except, guarded, mbind, M_bind, bind.
  by rewrite H.
Qed.

Lemma dunder_main_gate_fatal (X : externals) (w : world) :
  fst (version_info X) <> 3 \/ snd (version_info X) < 6 ->
  exists msg, dunder_main X w = (Raise (SystemExit 1), emit (Print msg) w).
Proof.
  intros H. pose proof (check_python_version_run X w) as Hrun.
  destruct (Z.eqb_spec (fst (version_info X)) 3) as [Hmaj|Hmaj]; simpl in Hrun.
  - destruct (Z.ltb_spec (snd (version_info X)) 6) as [Hmin|Hmin]; [|lia].
    eexists. by apply dunder_main_gate_exit.
  - eexists. by apply dunder_main_gate_exit.
Qed.

(** C2, as the code has it.  The gate ends the process with status 1 exactly
    when the major version is not 3 or the minor version is below 6, after
    one message and nothing else; with major version 3 and a minor version
    above 13 it prints one cautionary warning, returns, and execution goes
    on; with major version 3 and a minor version from 6 to 13 it is silent. *)
Theorem runtime_gate (X : externals) (w : world) :
  let major := fst (version_info X) in
  let minor := snd (version_info X) in
  (fst (check_python_version X w) = Raise (SystemExit 1) <-> major <> 3 \/ minor < 6) /\
  (fst (check_python_version X w) = Ret tt <-> major = 3 /\ 6 <= minor) /\
  (major <> 3 \/ minor < 6 ->
   exit_status (fst (dunder_main X w)) = 1 /\
   exists msg, snd (dunder_main X w) = emit (Print msg) w) /\
  (major = 3 -> 13 < minor ->
   check_python_version X w = (Ret tt, emit (Print (untested_message X)) w)) /\
  (major = 3 -> 6 <= minor <= 13 -> check_python_version X w = (Ret tt, w)).
Proof.
  intros major minor. subst major minor.
  pose proof (check_python_version_run X w) as Hrun.
  split; [|split; [|split; [|split]]].
  - rewrite Hrun.
    destruct (Z.eqb_spec (fst (version_info X)) 3),
      (Z.ltb_spec (snd (version_info X)) 6),
      (Z.ltb_spec 13 (snd (version_info X))); simpl;
      split; intros; try lia; try discriminate; reflexivity.
  - rewrite Hrun.
    destruct (Z.eqb_spec (fst (version_info X)) 3),
      (Z.ltb_spec (snd (version_info X)) 6),
      (Z.ltb_spec 13 (snd (version_info X))); simpl;
      split; intros; try lia; try discriminate; reflexivity.
  - intros H. destruct (dunder_main_gate_fatal X w H) as [msg Hmsg].
    rewrite Hmsg. split; [reflexivity | by exists msg].
  - intros Hmaj Hmin. rewrite Hrun.
    destruct (Z.eqb_spec (fst (version_info X)) 3); [simpl | lia].
    destruct (Z.ltb_spec (snd (version_info X)) 6); [lia|].
    by destruct (Z.ltb_spec 13 (snd (version_info X))); [|lia].
  - intros Hmaj Hmin. rewrite Hrun.
    destruct (Z.eqb_spec (fst (version_info X)) 3); [simpl | lia].
    destruct (Z.ltb_spec (snd (version_info X)) 6); [lia|].
    by destruct (Z.ltb_spec 13 (snd (version_info X))); [lia|].
Qed.

(** C2 as stated fails: under Python 3.5 the major version is the supported
    one, yet the process ends with a non-zero status. *)
Lemma gate_rejects_python_3_5 :
  let X := Sample.env (3, 5) Sample.tree Sample.url_only in
  let w := initial_world Sample.no_regs in
  ~ (exit_status (fst (dunder_main X w)) <> 0 <-> fst (version_info X) <> 3).
Proof.
  intros X w [H _]. apply H; [|reflexivity].
  vm_compute. discriminate.
Qed.

(** ** The top-level handlers *)

(** C10. When the guarded body raises [KeyboardInterrupt] or [EOFError],
    the top-level handler prints a blank line, logs one farewell message at
    level 22, and returns: nothing is re-raised and the exit status is 0. *)
Theorem interrupt_exits_cleanly (X : externals) (w w' : world) (e : exn) :
  guarded X w = (Raise e, w') ->
  is_KeyboardInterrupt e = true \/ is_EOFError e = true ->
  let farewell :=
    if is_KeyboardInterrupt e then "User interruption. Exiting SSTImap..."
    else "Received EOF. Exiting SSTImap..." in
  dunder_main X w =
    (Ret tt, {| trace := trace w' ++ [Print ""; Log 22 farewell]; regs := regs w' |}) /\
  exit_status (fst (dunder_main X w)) = 0.
Proof.
  intros Hrun He farewell. subst farewell.
  assert (Hd : dunder_main X w =
    (Ret tt, {| trace := trace w' ++ [Print "";
         Log 22 (if is_KeyboardInterrupt e then "User interruption. Exiting SSTImap..."
                 else "Received EOF. Exiting SSTImap...")];
       regs := regs w' |})).
  { unfold dunder_main, try_except. rewrite Hrun.
    destruct e; simpl in He; destruct He as [He|He]; try discriminate;
      unfold mbind, M_bind, bind, print, log_log, tell, emit; simpl;
      by rewrite <- app_assoc. }
  by rewrite Hd.
Qed.

Lemma interrupt_exits_cleanly_witness :
  let X := Sample.failing_env (3, 12) Sample.tree Sample.url_only
             "data_types.form" KeyboardInterrupt in
  exit_status (fst (dunder_main X (initial_world Sample.no_regs))) = 0.
Proof.
  intros X.
  refine (proj2 (interrupt_exits_cleanly X (initial_world Sample.no_regs)
                   (snd (guarded X (initial_world Sample.no_regs)))
                   KeyboardInterrupt _ (or_introl eq_refl))).
  vm_compute. reflexivity.
Defined.

(** C8, as the code has it.  An exception that derives from [Exception],
    raised anywhere in the guarded body (so also during discovery or
    dispatch), meets one of two clauses.  When it is not an [EOFError] it is
    logged at critical severity with its message, its trace is logged at
    debug severity, and it is raised again: the process ends with a non-zero
    status.  When it is an [EOFError], whatever raised it, it is taken for
    the end of input: a blank line, the farewell, a normal end with status
    0, and no critical or debug log. *)
Theorem unexpected_error_logged_and_reraised (X : externals) (w w' : world) (e : exn) :
  guarded X w = (Raise e, w') ->
  is_Exception e = true ->
  (is_EOFError e = false ->
   dunder_main X w =
     (Raise e,
      {| trace := trace w' ++ [Critical "An unexpected error occurred!";
                               Critical ("Error: " +:+ str_exn e);
                               Debug (format_exc X e)];
         regs := regs w' |}) /\
   exit_status (fst (dunder_main X w)) <> 0) /\
  (is_EOFError e = true ->
   dunder_main X w =
     (Ret tt,
      {| trace := trace w' ++ [Print ""; Log 22 "Received EOF. Exiting SSTImap..."];
         regs := regs w' |}) /\
   exit_status (fst (dunder_main X w)) = 0).
Proof.
  intros Hrun Hexc. split.
  - intros Heof.
    assert (Hd : dunder_main X w =
      (Raise e,
       {| trace := trace w' ++ [Critical "An unexpected error occurred!";
                                Critical ("Error: " +:+ str_exn e);
                                Debug (format_exc X e)];
          regs := regs w' |})).
    { unfold dunder_main, try_except. rewrite Hrun.
      destruct e; simpl in Hexc, Heof; try discriminate;
        unfold mbind, M_bind, bind, log_critical, log_debug, tell, raise, emit; simpl;
        by rewrite <- !app_assoc. }
    rewrite Hd. split; [reflexivity|].
    destruct e; simpl in Hexc |- *; done.
  - intros Heof.
    assert (Hd : dunder_main X w =
      (Ret tt,
       {| trace := trace w' ++ [Print ""; Log 22 "Received EOF. Exiting SSTImap..."];
          regs := regs w' |})).
    { unfold dunder_main, try_except. rewrite Hrun.
      destruct e; simpl in Heof; try discriminate.
      unfold mbind, M_bind, bind, print, log_log, tell, emit; simpl.
      by rewrite <- app_assoc. }
    by rewrite Hd.
Qed.

Lemma unexpected_error_logged_and_reraised_witness :
  let X := Sample.failing_env (3, 12) Sample.tree Sample.url_only
             "plugins.engines.mako" (OtherError "ImportError" "boom") in
  exit_status (fst (dunder_main X (initial_world Sample.no_regs))) <> 0.
Proof.
  intros X.
  refine (proj2 (proj1 (unexpected_error_logged_and_reraised X
                   (initial_world Sample.no_regs)
                   (snd (guarded X (initial_world Sample.no_regs)))
                   (OtherError "ImportError" "boom") _ eq_refl) eq_refl)).
  vm_compute. reflexivity.
Defined.

(** C8 as stated fails: a unit that cannot be read raises [EOFError] while
    it is imported during discovery (a truncated compiled file does); this is
    no interruption by the operator and no end of input of a read, yet the
    script takes it for the end of input: it logs neither at critical nor at
    debug severity, does not raise it again and ends with status 0. *)
Lemma unit_load_eof_error_is_swallowed :
  let X := Sample.unloadable_env (3, 12) Sample.tree Sample.url_only
             "data_types.json" (EOFError "marshal data too short") in
  let w := initial_world Sample.no_regs in
  ~ (forall e w', guarded X w = (Raise e, w') ->
       is_Exception e = true -> is_KeyboardInterrupt e = false ->
       fst (dunder_main X w) = Raise e /\
       Critical ("Error: " +:+ str_exn e) ∈ trace (snd (dunder_main X w)) /\
       exit_status (fst (dunder_main X w)) <> 0).
Proof.
  intros X w H.
  destruct (H (EOFError "marshal data too short") (snd (guarded X w)))
    as (Hraise & _ & _); [by vm_compute | reflexivity | reflexivity |].
  vm_compute in Hraise. discriminate.
Qed.

(** ** A small logic of traces *)

Section TraceLogic.

Context {A B : Type}.
Implicit Types (P : event -> Prop) (m : M A) (k : A -> M B).

Lemma emits_ret P (a : A) : emits P (ret a).
Proof. intros w. exists []. by rewrite app_nil_r. Qed.

Lemma emits_raise P (e : exn) : emits P (raise (A := A) e).
Proof. intros w. exists []. by rewrite app_nil_r. Qed.

Lemma emits_bind P m k :
  emits P m -> (forall a, emits P (k a)) -> emits P (m ≫= k).
Proof.
  intros Hm Hk w. unfold mbind, M_bind, bind.
  destruct (Hm w) as (t1 & Ht1 & HP1).
  destruct (m w) as [[a|e] w1]; simpl in *.
  - destruct (Hk a w1) as (t2 & Ht2 & HP2).
    exists (t1 ++ t2). rewrite Ht2, Ht1, app_assoc.
    split; [reflexivity | by apply Forall_app].
  - by exists t1.
Qed.

Lemma emits_weaken P (Q : event -> Prop) m :
  (forall e, P e -> Q e) -> emits P m -> emits Q m.
Proof.
  intros HPQ Hm w. destruct (Hm w) as (t & Ht & HP).
  exists t. split; [done|]. eapply Forall_impl; eauto.
Qed.

Lemma traces_ret (a : A) : traces (ret a) [].
Proof.
  intros w. split; [exists 0%nat|]; simpl; by rewrite ?app_nil_r.
Qed.

Lemma traces_raise (e : exn) (evs : list event) : traces (raise (A := A) e) evs.
Proof.
  intros w. split.
  - exists 0%nat. simpl. rewrite take_0, app_nil_r. split; [lia | done].
  - discriminate.
Qed.

Lemma traces_bind m k (evs1 evs2 : list event) :
  traces m evs1 -> (forall a, traces (k a) evs2) -> traces (m ≫= k) (evs1 ++ evs2).
Proof.
  intros Hm Hk w. unfold mbind, M_bind, bind.
  destruct (Hm w) as [(n1 & Hn1 & Ht1) Hret1].
  destruct (m w) as [[a|e] w1]; simpl in *.
  - specialize (Hret1 a eq_refl).
    destruct (Hk a w1) as [(n2 & Hn2 & Ht2) Hret2]. split.
    + exists (length evs1 + n2)%nat. rewrite length_app. split; [lia|].
      by rewrite Ht2, Hret1, take_app_add, app_assoc.
    + intros b Hb. by rewrite (Hret2 b Hb), Hret1, app_assoc.
  - split; [|discriminate].
    exists n1. rewrite length_app. split; [lia|].
    by rewrite take_app_le.
Qed.

End TraceLogic.

Lemma ret_bind {A B} (a : A) (k : A -> M B) : (ret a ≫= k) = k a.
Proof. reflexivity. Qed.

Lemma raise_bind {A B} (e : exn) (k : A -> M B) : (raise e ≫= k) = raise e.
Proof. reflexivity. Qed.

Lemma emits_tell (P : event -> Prop) (e : event) : P e -> emits P (tell e).
Proof. intros He w. exists [e]. split; [done | by constructor]. Qed.

Lemma emits_get_regs (P : event -> Prop) : emits P get_regs.
Proof. intros w. exists []. by rewrite app_nil_r. Qed.

Lemma emits_when (P : event -> Prop) (c : bool) (body : M unit) :
  emits P body -> emits P (when c body).
Proof. destruct c; [done | intros _; apply emits_ret]. Qed.

Lemma emits_for_each {A} (P : event -> Prop) (l : list A) (body : A -> M unit) :
  (forall x, emits P (body x)) -> emits P (for_each l body).
Proof.
  intros Hbody. induction l as [|x l IH]; simpl.
  - apply emits_ret.
  - apply emits_bind; [apply Hbody | intros _; apply IH].
Qed.

Lemma emits_call (P : event -> Prop) (e : event) (o : option exn) :
  P e -> emits P (call e o).
Proof.
  intros He. apply emits_bind; [by apply emits_tell|].
  intros _. destruct o; [apply emits_raise | apply emits_ret].
Qed.

Lemma emits_scandir (P : event -> Prop) (X : externals) (p : list string) (shown : string) :
  emits P (scandir X p shown).
Proof.
  unfold scandir. destruct (resolve p (fs X)) as [[|es]|];
    [apply emits_raise | apply emits_ret | apply emits_raise].
Qed.

Lemma importlib_import_module_trace (X : externals) (path : string) (w : world) :
  trace (snd (importlib_import_module X path w)) = trace w ++ [ImportModule path].
Proof.
  unfold importlib_import_module.
  destruct (import_module X path (regs (emit (ImportModule path) w))) as [r [e|]];
    reflexivity.
Qed.

Lemma emits_import (P : event -> Prop) (X : externals) (path : string) :
  P (ImportModule path) -> emits P (importlib_import_module X path).
Proof.
  intros HP w. exists [ImportModule path].
  split; [apply importlib_import_module_trace | by constructor].
Qed.

Lemma traces_tell (e : event) : traces (tell e) [e].
Proof.
  intros w. split; [exists 1%nat; simpl; split; [lia | done] | done].
Qed.

Lemma traces_import (X : externals) (path : string) :
  traces (importlib_import_module X path) [ImportModule path].
Proof.
  intros w. rewrite importlib_import_module_trace.
  split; [exists 1%nat; simpl; split; [lia | done] | done].
Qed.

Lemma traces_for_each {A} (l : list A) (body : A -> M unit) (evs : A -> list event) :
  (forall x, traces (body x) (evs x)) ->
  traces (for_each l body) (concat (map evs l)).
Proof.
  intros Hbody. induction l as [|x l IH]; simpl.
  - apply traces_ret.
  - apply traces_bind; [apply Hbody | intros _; apply IH].
Qed.

(** ** The loaders *)

Lemma scandir_dir (X : externals) (p : list string) (shown : string) es :
  resolve p (fs X) = Some (Dir es) -> scandir X p shown = ret es.
Proof. intros H. unfold scandir. by rewrite H. Qed.

Lemma path_exists_resolve (X : externals) (p : list string) (n : node) :
  resolve p (fs X) = Some n -> path_exists X p = true.
Proof. intros H. unfold path_exists. by rewrite H. Qed.

Lemma traces_load_loop (X : externals) (path_of : string -> string)
    (entries : list (string * node)) :
  traces
    (for_each entries (fun entry =>
       when (endswith (fst entry) ".py" && negb (startswith (fst entry) "_"))
         (importlib_import_module X (path_of (fst entry)))))
    (map ImportModule (unit_paths path_of entries)).
Proof.
  induction entries as [|entry entries IH]; [apply traces_ret|].
  unfold unit_paths in *. rewrite filter_cons.
  cbn [for_each]. fold (loadable (fst entry)).
  destruct (loadable (fst entry)) eqn:Hl; simpl.
  - apply (traces_bind _ _ [ImportModule (path_of (fst entry))]);
      [apply traces_import | intros _; apply IH].
  - apply (traces_bind _ _ []); [apply traces_ret | intros _; apply IH].
Qed.


Lemma traces_plugin_group (X : externals) (group : string * node) :
  traces
    (module_entries ← scandir X ["plugins"; fst group]
         (path_join (path_join (sys_path0 X) "plugins") (fst group));
     for_each module_entries (fun entry =>
       when (endswith (fst entry) ".py" && negb (startswith (fst entry) "_"))
         (importlib_import_module X
            ("plugins." +:+ fst group +:+ "." +:+ slice_to_neg (fst entry) 3))))
    (plugin_group_events X group).
Proof.
  unfold plugin_group_events, scandir.
  destruct (resolve ["plugins"; fst group] (fs X)) as [[|es]|].
  - rewrite raise_bind. apply traces_raise.
  - rewrite ret_bind. apply (traces_load_loop X (plugin_path (fst group))).
  - rewrite raise_bind. apply traces_raise.
Qed.

Lemma traces_import_plugins (X : externals) (groups : list (string * node)) :
  resolve ["plugins"] (fs X) = Some (Dir groups) ->
  traces (import_plugins X) (InvalidateCaches :: plugin_events X groups).
Proof.
  intros Hres. unfold import_plugins, scan_plugin_folder.
  rewrite (path_exists_resolve _ _ _ Hres), (scandir_dir _ _ _ _ Hres). simpl.
  rewrite !ret_bind.
  apply (traces_bind _ _ [InvalidateCaches]); [apply traces_tell|]. intros _.
  unfold plugin_events.
  apply traces_for_each. intros group. apply traces_plugin_group.
Qed.

Lemma unit_paths_names (path_of : string -> string) (entries : list (string * node)) :
  unit_paths path_of entries =
  map path_of (filter (fun name => loadable name) (map fst entries)).
Proof.
  unfold unit_paths.
  induction entries as [|entry entries IH]; [reflexivity|].
  rewrite fmap_cons, !filter_cons. simpl.
  destruct (loadable (fst entry)); simpl; by rewrite IH.
Qed.


(** C4. When the plugin root does not exist, the plugin loader prints one
    warning, asks for no import, leaves both registries as they were and
    returns; the same holds of the data-type loader when the data-types
    root does not exist.  With both roots missing the whole discovery step
    returns with the registries unchanged, so [main] goes on. *)
Theorem missing_root_is_not_fatal (X : externals) (w : world) :
  (path_exists X ["plugins"] = false ->
   import_plugins X w =
     (Ret tt,
      {| trace := trace w ++
           [InvalidateCaches;
            Print ("[!] Plugin directory not found: " +:+ sys_path0 X +:+ "/plugins")];
         regs := regs w |})) /\
  (path_exists X ["data_types"] = false ->
   import_data_types X w =
     (Ret tt,
      {| trace := trace w ++
           [InvalidateCaches; Print "[!] data_types directory missing!"];
         regs := regs w |})) /\
  (path_exists X ["plugins"] = false ->
   path_exists X ["data_types"] = false ->
   fst (discover X w) = Ret tt /\ regs (snd (discover X w)) = regs w).
Proof.
  assert (Hp : path_exists X ["plugins"] = false ->
   import_plugins X w =
     (Ret tt,
      {| trace := trace w ++
           [InvalidateCaches;
            Print ("[!] Plugin directory not found: " +:+ sys_path0 X +:+ "/plugins")];
         regs := regs w |})).
  { intros H. unfold import_plugins, scan_plugin_folder. rewrite H. simpl.
    unfold mbind, M_bind, bind, tell, print, tell, ret, emit. simpl.
    by rewrite <- app_assoc. }
  assert (Hd : forall w', path_exists X ["data_types"] = false ->
   import_data_types X w' =
     (Ret tt,
      {| trace := trace w' ++
           [InvalidateCaches; Print "[!] data_types directory missing!"];
         regs := regs w' |})).
  { intros w' H. unfold import_data_types. rewrite H. simpl.
    unfold mbind, M_bind, bind, tell, print, tell, ret, emit. simpl.
    by rewrite <- app_assoc. }
  split; [exact Hp|]. split; [apply Hd|].
  intros H1 H2. unfold discover, mbind, M_bind, bind.
  rewrite (Hp H1). unfold print_plugin_summary, mbind, M_bind, bind, get_regs, log_log, tell.
  simpl. rewrite (Hd _ H2). by simpl.
Qed.

Lemma missing_root_is_not_fatal_witness :
  let X := Sample.env (3, 12) (Dir [("sstimap.py", File)]) Sample.url_only in
  let w := initial_world Sample.no_regs in
  fst (discover X w) = Ret tt /\ regs (snd (discover X w)) = regs w.
Proof.
  intros X w.
  exact (proj2 (proj2 (missing_root_is_not_fatal X w)) eq_refl eq_refl).
Defined.

(** ** The summaries *)

Lemma append_inj_r (a b c : string) : a +:+ c = b +:+ c -> a = b.
Proof.
  revert b. induction a as [|x a IH]; intros [|y b] H; norm_append.
  - reflexivity.
  - apply (f_equal String.length) in H. simpl in H.
    rewrite length_append in H. lia.
  - apply (f_equal String.length) in H. simpl in H.
    rewrite length_append in H. lia.
  - simplify_eq. f_equal. by apply IH.
Qed.

Lemma print_plugin_summary_run (w : world) :
  print_plugin_summary w =
  (Ret tt,
   emit (Log 26 ("Loaded plugins by categories: " +:+
                 join "; " (map plugin_fragment (loaded_plugins (regs w))))) w).
Proof. reflexivity. Qed.

Lemma print_data_type_summary_run (w : world) :
  print_data_type_summary w =
  (Ret tt,
   emit (Log 26 ("Loaded request body types: " +:+
                 pretty (size (loaded_data_types (regs w))) +:+ NL)) w).
Proof. reflexivity. Qed.

(** ** Reading the plugin summary back *)

Lemma string_app_assoc (a b c : string) : (a +:+ b) +:+ c = a +:+ (b +:+ c).
Proof.
  induction a as [|x a IH]; norm_append; [reflexivity | by rewrite IH].
Qed.

Lemma semicolon_free_app (a b : string) :
  semicolon_free (a +:+ b) = semicolon_free a && semicolon_free b.
Proof.
  induction a as [|x a IH]; norm_append; simpl; [reflexivity|].
  by rewrite IH, andb_assoc.
Qed.

Lemma semicolon_free_pretty_N_go (x : N) (s : string) :
  semicolon_free s = true -> semicolon_free (pretty_N_go x s) = true.
Proof.
  revert s. induction (N.lt_wf_0 x) as [x _ IH]; intros s Hs.
  assert (x = 0 \/ 0 < x)%N as [->|Hx] by lia.
  - by rewrite pretty_N_go_0.
  - rewrite pretty_N_go_step by done. apply IH.
    { by apply N.div_lt. }
    simpl. rewrite Hs, andb_true_r.
    unfold pretty_N_char. by repeat case_match.
Qed.

Lemma semicolon_free_pretty_nat (n : nat) : semicolon_free (pretty n) = true.
Proof.
  unfold pretty, pretty_nat, pretty, pretty_N.
  case_decide; [reflexivity|]. by apply semicolon_free_pretty_N_go.
Qed.

Lemma semicolon_free_fragment (item : string * list string) :
  semicolon_free (fst item) = true -> semicolon_free (plugin_fragment item) = true.
Proof.
  intros H. unfold plugin_fragment.
  by rewrite !semicolon_free_app, H, semicolon_free_pretty_nat.
Qed.

Lemma split_semi_free (f : string) :
  semicolon_free f = true -> split_semi f = [f].
Proof.
  induction f as [|c f IH]; [reflexivity|].
  simpl. intros [Hc Hf]%andb_true_iff.
  apply negb_true_iff in Hc. rewrite Hc, (IH Hf). reflexivity.
Qed.

Lemma split_semi_sep (f g : string) :
  semicolon_free f = true -> split_semi (f +:+ "; " +:+ g) = f :: split_semi g.
Proof.
  induction f as [|c f IH]; norm_append; [reflexivity|].
  intros [Hc Hf]%andb_true_iff. apply negb_true_iff in Hc.
  cbn [split_semi]. rewrite Hc, (IH Hf). reflexivity.
Qed.

Lemma split_semi_join (fs : list string) :
  fs <> [] ->
  Forall (fun f => semicolon_free f = true) fs ->
  split_semi (join "; " fs) = fs.
Proof.
  induction fs as [|f fs IH]; [done|]. intros _ Hfree.
  apply Forall_cons in Hfree as [Hf Hfs].
  destruct fs as [|g fs].
  - by apply split_semi_free.
  - change (join "; " (f :: g :: fs)) with (f +:+ "; " +:+ join "; " (g :: fs)).
    rewrite split_semi_sep by done. by rewrite IH.
Qed.

Lemma join_contains (sep : string) (fs : list string) (i : nat) (f : string) :
  fs !! i = Some f -> exists pre post, join sep fs = pre +:+ f +:+ post.
Proof.
  revert i. induction fs as [|f0 fs IH]; intros i Hi; [done|].
  destruct i as [|i]; simpl in Hi.
  - injection Hi as ->. destruct fs as [|g fs].
    + exists "", "". simpl. induction f as [|c f IHf]; norm_append; [done|].
      by rewrite <- IHf.
    + by exists "", (sep +:+ join sep (g :: fs)).
  - destruct (IH i Hi) as (pre & post & Hj).
    destruct fs as [|g fs]; [done|].
    change (join sep (f0 :: g :: fs)) with (f0 +:+ sep +:+ join sep (g :: fs)).
    exists (f0 +:+ sep +:+ pre), post. by rewrite Hj, !string_app_assoc.
Qed.

(** C7. The summaries are exact and only observe.  The plugin summary logs
    one line: the heading followed by one entry per category of the
    registry, in the registry's order, joined by "; " (nothing after the
    heading for an empty registry).  The line shows, for every category,
    its name followed by ": " and the length of its collection; the number
    an entry shows for a category can be no other than that length; and when
    no category name holds a semicolon, splitting what follows the heading
    at "; " gives back exactly these entries.  The data-type summary logs
    the size of the data-type registry and no other number.  Neither summary
    changes a registry. *)
Theorem summaries_exact (w : world) :
  let fragments := map plugin_fragment (loaded_plugins (regs w)) in
  print_plugin_summary w =
    (Ret tt,
     emit (Log 26 ("Loaded plugins by categories: " +:+ join "; " fragments)) w) /\
  length fragments = length (loaded_plugins (regs w)) /\
  (forall (i : nat) category plugin_list (n : nat),
     loaded_plugins (regs w) !! i = Some (category, plugin_list) ->
     fragments !! i = Some (category +:+ ": " +:+ pretty n) <->
     n = length plugin_list) /\
  (exists body,
     print_plugin_summary w =
       (Ret tt, emit (Log 26 ("Loaded plugins by categories: " +:+ body)) w) /\
     (loaded_plugins (regs w) = [] -> body = "") /\
     (forall (i : nat) category plugin_list,
        loaded_plugins (regs w) !! i = Some (category, plugin_list) ->
        exists pre post,
          body = pre +:+ (category +:+ ": " +:+ pretty (length plugin_list)) +:+ post) /\
     (loaded_plugins (regs w) <> [] ->
      Forall (fun item => semicolon_free (fst item) = true) (loaded_plugins (regs w)) ->
      split_semi body = fragments)) /\
  (forall n : nat,
     print_data_type_summary w =
       (Ret tt, emit (Log 26 ("Loaded request body types: " +:+ pretty n +:+ NL)) w) <->
     n = size (loaded_data_types (regs w))) /\
  regs (snd (print_plugin_summary w)) = regs w /\
  regs (snd (print_data_type_summary w)) = regs w.
Proof.
  intros fragments. subst fragments.
  split; [apply print_plugin_summary_run|].
  split; [apply length_map|].
  split; [|split; [|split; [|split; reflexivity]]].
  - intros i category plugin_list n Hi.
    rewrite list_lookup_fmap, Hi. simpl. unfold plugin_fragment. simpl.
    split.
    + intros H. injection H as H.
      do 2 apply (inj (String.append _)) in H.
      by apply (inj pretty) in H.
    + by intros ->.
  - exists (join "; " (map plugin_fragment (loaded_plugins (regs w)))).
    split; [apply print_plugin_summary_run|]. split; [by intros ->|]. split.
    + intros i category plugin_list Hi.
      apply (join_contains "; " _ i).
      by rewrite list_lookup_fmap, Hi.
    + intros Hne Hfree. apply split_semi_join.
      * by destruct (loaded_plugins (regs w)).
      * apply Forall_fmap. eapply Forall_impl; [exact Hfree|].
        intros item. apply semicolon_free_fragment.
  - intros n. rewrite print_data_type_summary_run. split.
    + intros H. injection H as H.
      apply app_inv_head in H. injection H as H.
      apply (inj (String.append _)) in H.
      apply append_inj_r in H. by apply (inj pretty) in H.
    + by intros ->.
Qed.

Lemma summaries_exact_witness :
  let w := initial_world
             {| loaded_plugins := [("engines", ["Jinja2"; "Mako"]); ("languages", ["Php"])];
                loaded_data_types := {[ "json" := "Json" ]} |} in
  exists body,
    print_plugin_summary w =
      (Ret tt, emit (Log 26 ("Loaded plugins by categories: " +:+ body)) w) /\
    split_semi body = ["engines: 2"; "languages: 1"].
Proof.
  intros w.
  destruct (proj1 (proj2 (proj2 (proj2 (summaries_exact w)))))
    as (body & Hrun & _ & _ & Hsplit).
  exists body. split; [exact Hrun|].
  rewrite Hsplit; [reflexivity | discriminate | by repeat constructor].
Defined.

Example plugin_summary_line :
  let w := initial_world
             {| loaded_plugins := [("engines", ["Jinja2"; "Mako"]); ("languages", ["Php"])];
                loaded_data_types := {[ "json" := "Json" ]} |} in
  trace (snd (print_plugin_summary w)) =
    [Log 26 "Loaded plugins by categories: engines: 2; languages: 1"] /\
  trace (snd (print_plugin_summary (initial_world Sample.no_regs))) =
    [Log 26 "Loaded plugins by categories: "].
Proof. split; reflexivity. Qed.

(** ** The order of the steps *)

Create HintDb emits.

#[local] Hint Resolve emits_ret emits_raise emits_bind emits_tell emits_when
  emits_for_each emits_call emits_scandir emits_import emits_get_regs : emits.
#[local] Hint Extern 1 (quiet_event _) => split; reflexivity : emits.
#[local] Hint Extern 1 (is_dispatch _ = false) => reflexivity : emits.
#[local] Hint Extern 1 (is_discovery _ = false) => reflexivity : emits.

Lemma emits_check_python_version (X : externals) :
  emits quiet_event (check_python_version X).
Proof.
  unfold check_python_version, print, sys_exit. auto 10 with emits.
Qed.

Lemma emits_assemble (X : externals) : emits quiet_event (assemble X).
Proof.
  unfold assemble, display_welcome_banner, print.
  destruct (truthy _); auto 10 with emits.
Qed.

Lemma assemble_returns (X : externals) (w : world) :
  exists cfg w1, assemble X w = (Ret cfg, w1).
Proof.
  unfold assemble, display_welcome_banner, print, mbind, M_bind, bind, tell.
  destruct (truthy _); simpl; eauto.
Qed.

Lemma emits_discover (X : externals) :
  emits (fun e => is_dispatch e = false) (discover X).
Proof.
  unfold discover, import_plugins, scan_plugin_folder, import_data_types,
    print_plugin_summary, print_data_type_summary, print, log_log.
  repeat (apply emits_bind; [|intros ?]);
    repeat match goal with
           | |- emits _ (if ?c then _ else _) => destruct c
           end;
    auto 10 with emits.
Qed.

Lemma emits_enter_mode (X : externals) (cfg : config) (m : ExecutionMode) :
  emits (fun e => is_discovery e = false) (enter_mode X cfg m).
Proof.
  destruct m as [|v| |]; simpl;
    unfold show_usage_hint, handle_module_option, checks_module_info,
      start_interactive_shell, launch_scan, log_log;
    try destruct (eq_str v "list"); auto 10 with emits.
Qed.

Lemma dunder_main_trace (X : externals) (w : world) :
  exists h,
    trace (snd (dunder_main X w)) = trace (snd (guarded X w)) ++ h /\
    Forall quiet_event h.
Proof.
  unfold dunder_main, try_except.
  destruct (guarded X w) as [[[]|e] w']; simpl.
  - exists []. by rewrite app_nil_r.
  - destruct e; simpl;
      try (exists []; by rewrite app_nil_r);
      unfold mbind, M_bind, bind, print, log_log, log_critical, log_debug,
        tell, raise, emit; simpl;
      rewrite <- ?app_assoc; simpl;
      eexists; (split; [reflexivity|]);
      repeat constructor.
Qed.

Lemma guarded_run (X : externals) (w w0 w1 : world) (cfg : config) :
  check_python_version X w = (Ret tt, w0) ->
  assemble X w0 = (Ret cfg, w1) ->
  guarded X w =
    match discover X w1 with
    | (Ret _, w2) => route X cfg w2
    | (Raise e, w2) => (Raise e, w2)
    end.
Proof.
  intros H0 H1. unfold guarded, main, mbind, M_bind, bind.
  by rewrite H0, H1.
Qed.

Lemma emits_main (X : externals) : emits (fun _ => True) (main X).
Proof.
  unfold main.
  apply emits_bind; [by eapply emits_weaken; [|apply emits_assemble]|].
  intros cfg.
  apply emits_bind; [by eapply emits_weaken; [|apply emits_discover]|].
  intros _. rewrite route_enter_mode.
  by eapply emits_weaken; [|apply emits_enter_mode].
Qed.

Lemma Forall_no_dispatch_quiet (t : list event) :
  Forall quiet_event t -> Forall (fun e => is_dispatch e = false) t.
Proof. intros H. eapply Forall_impl; [exact H|]. by intros e [_ ?]. Qed.

Lemma Forall_no_discovery_quiet (t : list event) :
  Forall quiet_event t -> Forall (fun e => is_discovery e = false) t.
Proof. intros H. eapply Forall_impl; [exact H|]. by intros e [? _]. Qed.

(** The shape of every run from an empty trace: the gate ends the process,
    or discovery raises, or discovery returns and the route logic runs. *)
Lemma dunder_main_structure (X : externals) (r : registries) :
  let w := initial_world r in
  let tr := trace (snd (dunder_main X w)) in
  Forall (fun e => is_dispatch e = false) tr \/
  exists cfg w0 w1 w2 after,
    check_python_version X w = (Ret tt, w0) /\
    assemble X w0 = (Ret cfg, w1) /\
    discover X w1 = (Ret tt, w2) /\
    tr = trace w2 ++ after /\
    Forall (fun e => is_dispatch e = false) (trace w2) /\
    Forall (fun e => is_discovery e = false) after.
Proof.
  intros w tr. subst tr.
  destruct (dunder_main_trace X w) as (h & Hh & Hquiet). rewrite Hh.
  destruct (emits_check_python_version X w) as (t0 & Ht0 & Hq0).
  destruct (check_python_version X w) as [[[]|e0] w0] eqn:Hgate; simpl in Ht0.
  - destruct (assemble_returns X w0) as (cfg & w1 & Hasm).
    destruct (emits_assemble X w0) as (t1 & Ht1 & Hq1).
    rewrite Hasm in Ht1. simpl in Ht1.
    rewrite (guarded_run X w w0 w1 cfg Hgate Hasm).
    destruct (emits_discover X w1) as (t2 & Ht2 & Hq2).
    assert (Hw2 : Forall (fun e => is_dispatch e = false) (trace (snd (discover X w1)))).
    { rewrite Ht2, Ht1, Ht0. simpl.
      repeat apply Forall_app_2; auto using Forall_no_dispatch_quiet. }
    destruct (discover X w1) as [[[]|e2] w2] eqn:Hdisc; simpl in *.
    + right. exists cfg, w0, w1, w2.
      destruct (emits_enter_mode X cfg (select_mode_spec cfg) w2) as (t3 & Ht3 & Hq3).
      rewrite <- route_enter_mode in Ht3.
      exists (t3 ++ h). rewrite Ht3, <- app_assoc.
      do 5 (split; [done|]).
      apply Forall_app_2; auto using Forall_no_discovery_quiet.
    + left. apply Forall_app_2; auto using Forall_no_dispatch_quiet.
  - left. unfold guarded, mbind, M_bind, bind. rewrite Hgate. simpl.
    rewrite Ht0. simpl.
    repeat apply Forall_app_2; auto using Forall_no_dispatch_quiet.
Qed.

(** C6. In every run of the script the steps come in a fixed order.  The
    gate comes first: what it prints opens the trace, and with a major
    version other than 3 the process ends with status 1 after that single
    message, with no configuration assembled, nothing imported and no mode
    entered.  Whenever a mode is entered, the gate has returned, the
    configuration was assembled and the whole discovery step has returned
    before: every discovery event precedes every event of the mode. *)
Theorem startup_order (X : externals) (r : registries) :
  let w := initial_world r in
  let tr := trace (snd (dunder_main X w)) in
  (exists rest, tr = trace (snd (check_python_version X w)) ++ rest) /\
  (fst (version_info X) <> 3 ->
   dunder_main X w =
     (Raise (SystemExit 1), emit (Print (unsupported_major_message X)) w)) /\
  ((exists e, e ∈ tr /\ is_dispatch e = true) ->
   exists cfg w0 w1 w2 after,
     check_python_version X w = (Ret tt, w0) /\
     assemble X w0 = (Ret cfg, w1) /\
     discover X w1 = (Ret tt, w2) /\
     tr = trace w2 ++ after /\
     Forall (fun e => is_dispatch e = false) (trace w2) /\
     Forall (fun e => is_discovery e = false) after) /\
  (forall (i j : nat) e d,
     tr !! i = Some e -> tr !! j = Some d ->
     is_dispatch e = true -> is_discovery d = true -> (j < i)%nat).
Proof.
  intros w tr.
  assert (Hstruct := dunder_main_structure X r). simpl in Hstruct.
  fold w in Hstruct. fold tr in Hstruct.
  assert (Hmode : (exists e, e ∈ tr /\ is_dispatch e = true) ->
   exists cfg w0 w1 w2 after,
     check_python_version X w = (Ret tt, w0) /\
     assemble X w0 = (Ret cfg, w1) /\
     discover X w1 = (Ret tt, w2) /\
     tr = trace w2 ++ after /\
     Forall (fun e => is_dispatch e = false) (trace w2) /\
     Forall (fun e => is_discovery e = false) after).
  { intros (e & Hin & He). destruct Hstruct as [Hnone|Hrun]; [|exact Hrun].
    rewrite Forall_forall in Hnone. specialize (Hnone e Hin). congruence. }
  split; [|split; [|split; [exact Hmode|]]].
  - subst tr. destruct (dunder_main_trace X w) as (h & Hh & _). rewrite Hh.
    unfold guarded, mbind, M_bind, bind.
    destruct (check_python_version X w) as [[[]|e0] w0]; simpl; [|eauto].
    destruct (emits_main X w0) as (t & Ht & _).
    rewrite Ht, <- app_assoc. eauto.
  - intros Hmaj. apply dunder_main_gate_exit.
    rewrite check_python_version_run.
    by destruct (Z.eqb_spec (fst (version_info X)) 3).
  - intros i j e d Hi Hj He Hd.
    destruct Hmode as (cfg & w0 & w1 & w2 & after & _ & _ & _ & Htr & Hpre & Hpost).
    { exists e. split; [|done]. by eapply list_elem_of_lookup_2. }
    rewrite Htr in Hi, Hj.
    destruct (decide (i < length (trace w2))%nat) as [Hlt|Hge].
    { rewrite lookup_app_l in Hi by done.
      rewrite Forall_forall in Hpre.
      rewrite (Hpre e) in He; [done|]. by eapply list_elem_of_lookup_2. }
    destruct (decide (j < length (trace w2))%nat) as [Hlt'|Hge']; [lia|].
    rewrite lookup_app_r in Hj by lia.
    rewrite Forall_forall in Hpost.
    rewrite (Hpost d) in Hd; [done|]. by eapply list_elem_of_lookup_2.
Qed.

Lemma startup_order_witness :
  let X := Sample.env (2, 7) Sample.tree Sample.url_only in
  let w := initial_world Sample.no_regs in
  dunder_main X w =
    (Raise (SystemExit 1), emit (Print (unsupported_major_message X)) w).
Proof.
  intros X w.
  refine (proj1 (proj2 (startup_order X Sample.no_regs)) _).
  simpl. lia.
Defined.

(** ** The examples of the specification, run on the embedding *)

Example module_beats_interactive_and_url :
  select_mode_spec {[ "module" := PStr "list"; "interactive" := PBool true;
                      "url" := PStr "http://x" ]} = ModuleInfoMode (PStr "list").
Proof. reflexivity. Qed.

Example interactive_beats_url :
  select_mode_spec {[ "interactive" := PBool true; "url" := PStr "http://x" ]}
  = Interactive.
Proof. reflexivity. Qed.

Example url_only_scans : select_mode_spec Sample.url_only = Scan.
Proof. reflexivity. Qed.

Example nothing_set_hints :
  select_mode_spec {[ "url" := PStr ""; "interactive" := PBool false;
                      "load_urls" := PNone; "module" := PStr "" ]} = UsageHint.
Proof. reflexivity. Qed.

Example scan_run :
  let X := Sample.env (3, 12) Sample.tree Sample.url_only in
  let out := dunder_main X (initial_world Sample.no_regs) in
  fst out = Ret tt /\
  filter (fun e => is_discovery e || is_dispatch e) (trace (snd out)) =
    [InvalidateCaches;
     ImportModule "plugins.engines.jinja2"; ImportModule "plugins.engines.mako";
     ImportModule "plugins.languages.php";
     Log 26 "Loaded plugins by categories: all: 3";
     InvalidateCaches;
     ImportModule "data_types.json"; ImportModule "data_types.form";
     Log 26 ("Loaded request body types: 2" +:+ NL);
     Log 23 "Starting SSTI scan using predefined configuration...";
     ScanWebsite (<["version" := PStr "1.2"]> Sample.url_only)].
Proof. vm_compute. split; reflexivity. Qed.

Example keyboard_interrupt_in_scan :
  let X := Sample.failing_env (3, 12) Sample.tree Sample.url_only "" KeyboardInterrupt in
  let out := dunder_main X (initial_world Sample.no_regs) in
  exit_status (fst out) = 0 /\
  last (trace (snd out)) = Some (Log 22 "User interruption. Exiting SSTImap...").
Proof. vm_compute. split; reflexivity. Qed.

(** ** The configuration bundle and the banner *)

Lemma assemble_run (X : externals) (w : world) :
  assemble X w =
  (Ret (assembled X),
   {| trace := trace w ++
        [ConfigArgs (cliparser_options X);
         SetFormatterColour (dict_get_default (assembled X) "colour" (PBool true));
         Print (banner_line X (dict_get_default (assembled X) "colour" (PBool true)))];
      regs := regs w |}).
Proof.
  unfold assemble, display_welcome_banner, banner_line, print, mbind, M_bind, bind,
    tell, ret, emit. fold (assembled X).
  destruct (truthy _); simpl; by rewrite <- !app_assoc.
Qed.

(** X1. Steps 1 to 4 of [main] always return; the bundle they yield holds
    [version] under the key "version", whatever the assembler had put
    there, agrees with the assembler's output on every other key, and the
    registries are not touched. *)
Theorem assemble_injects_version (X : externals) (w : world) :
  exists cfg w',
    assemble X w = (Ret cfg, w') /\
    cfg !! "version" = Some (version X) /\
    (forall k, k <> "version" ->
       cfg !! k = config_args X (cliparser_options X) !! k) /\
    regs w' = regs w.
Proof.
  eexists _, _. split; [apply assemble_run|].
  split; [apply lookup_insert_eq|]. split; [|reflexivity].
  intros k Hk. unfold assembled. by rewrite lookup_insert_ne.
Qed.

(** X2. The banner is printed once, after the formatter's colour is set to
    the same value.  Without a "colour" key the banner is printed as it is
    (colour defaults to [True]); with the key present its truthiness
    decides, so a "colour" that is present with the value [None] strips the
    colours like [False] does. *)
Theorem banner_colour (X : externals) (w : world) :
  let cfg := config_args X (cliparser_options X) in
  (cfg !! "colour" = None ->
   trace (snd (assemble X w)) =
     trace w ++ [ConfigArgs (cliparser_options X); SetFormatterColour (PBool true);
                 Print (cliparser_banner X)]) /\
  (forall v, cfg !! "colour" = Some v ->
   trace (snd (assemble X w)) =
     trace w ++ [ConfigArgs (cliparser_options X); SetFormatterColour v;
                 Print (if truthy v then cliparser_banner X
                        else no_colour X (cliparser_banner X))]) /\
  (cfg !! "colour" = Some PNone ->
   trace (snd (assemble X w)) =
     trace w ++ [ConfigArgs (cliparser_options X); SetFormatterColour PNone;
                 Print (no_colour X (cliparser_banner X))]).
Proof.
  intros cfg. rewrite assemble_run. simpl.
  assert (Hc : assembled X !! "colour" = cfg !! "colour")
    by (unfold assembled; by rewrite lookup_insert_ne).
  unfold dict_get_default. rewrite Hc.
  split; [|split].
  - by intros ->.
  - by intros v ->.
  - by intros ->.
Qed.

Lemma banner_colour_witness :
  let opts : config := {[ "url" := PStr "http://x"; "colour" := PNone ]} in
  let X := Sample.env (3, 12) Sample.tree opts in
  trace (snd (assemble X (initial_world Sample.no_regs))) =
    [ConfigArgs opts; SetFormatterColour PNone; Print "SSTImap"].
Proof.
  intros opts X.
  exact (proj2 (proj2 (banner_colour X (initial_world Sample.no_regs))) eq_refl).
Defined.

Lemma select_mode_spec_assembled (X : externals) :
  select_mode_spec (assembled X) =
  select_mode_spec (config_args X (cliparser_options X)).
Proof.
  unfold select_mode_spec, dict_get, assembled.
  by rewrite !lookup_insert_ne.
Qed.

(** X3. Setting "version" in the bundle changes nothing to the mode: [main]
    assembles the bundle, runs the discovery step, and then enters the mode
    selected by the assembler's own output. *)
Theorem main_mode_from_assembler (X : externals) (w : world) :
  exists cfg w1,
    assemble X w = (Ret cfg, w1) /\
    select_mode_spec cfg = select_mode_spec (config_args X (cliparser_options X)) /\
    main X w =
      (discover X ;;
       enter_mode X cfg (select_mode_spec (config_args X (cliparser_options X)))) w1.
Proof.
  eexists _, _. split; [apply assemble_run|].
  split; [apply select_mode_spec_assembled|].
  unfold main. unfold mbind at 1. unfold M_bind, bind. rewrite assemble_run.
  by rewrite route_enter_mode, select_mode_spec_assembled.
Qed.

(** ** The route logic, mode by mode *)

Lemma enter_mode_run (X : externals) (cfg : config) (m : ExecutionMode) (w : world) :
  enter_mode X cfg m w =
  (match mode_outcome X cfg m (regs w) with Some e => Raise e | None => Ret tt end,
   {| trace := trace w ++ mode_events cfg m; regs := regs w |}).
Proof.
  destruct m as [|v| |]; simpl.
  - reflexivity.
  - unfold handle_module_option.
    by destruct (eq_str v "list"); rewrite checks_module_info_run.
  - unfold start_interactive_shell, call, log_log, mbind, M_bind, bind, get_regs,
      tell, emit. simpl.
    destruct (shell_cmdloop X cfg (regs w)); simpl; by rewrite <- app_assoc.
  - unfold launch_scan, call, log_log, mbind, M_bind, bind, get_regs, tell, emit.
    simpl. destruct (scan_website X cfg (regs w)); simpl; by rewrite <- app_assoc.
Qed.

(** X4. The route logic calls one collaborator at most and never changes a
    registry: the usage hint is a single level-22 log line and calls none;
    the interactive and scan modes log one level-23 line and then call the
    shell or the scan engine with the whole bundle; the module mode calls
    the reporter.  It raises exactly what the collaborator it called
    raises, and returns otherwise. *)
Theorem route_runs_one_mode (X : externals) (cfg : config) (w : world) :
  let m := select_mode_spec cfg in
  route X cfg w =
    (match mode_outcome X cfg m (regs w) with Some e => Raise e | None => Ret tt end,
     {| trace := trace w ++ mode_events cfg m; regs := regs w |}) /\
  (length (filter (fun e => is_collaborator_call e) (mode_events cfg m)) <= 1)%nat /\
  (filter (fun e => is_collaborator_call e) (mode_events cfg m) = [] <-> m = UsageHint).
Proof.
  intros m. split.
  - rewrite route_enter_mode. apply enter_mode_run.
  - split; [destruct m; simpl; lia|].
    destruct m; split; intros H; try done; vm_compute in H; discriminate.
Qed.

(** ** Roots that are not directories, and roots without categories *)

(** X5. A root that exists but is not a directory is fatal, unlike a
    missing one: the loader raises [NotADirectoryError] for the root right
    after invalidating the caches, with no warning and no import, and the
    discovery step raises with it.  The plugin root is named by
    [sys.path[0]] followed by "/plugins"; the data-types root by
    [os.path.join], which puts no separator after an empty [sys.path[0]] or
    one that ends with a separator. *)
Theorem root_not_a_directory_raises (X : externals) (w : world) :
  (resolve ["plugins"] (fs X) = Some File ->
   import_plugins X w =
     (Raise (NotADirectoryError (sys_path0 X +:+ "/plugins")), emit InvalidateCaches w) /\
   discover X w =
     (Raise (NotADirectoryError (sys_path0 X +:+ "/plugins")), emit InvalidateCaches w)) /\
  (resolve ["data_types"] (fs X) = Some File ->
   import_data_types X w =
     (Raise (NotADirectoryError (path_join (sys_path0 X) "data_types")),
      emit InvalidateCaches w)) /\
  path_join (sys_path0 X) "data_types" =
    (if String.eqb (sys_path0 X) "" || endswith (sys_path0 X) "/"
     then sys_path0 X +:+ "data_types"
     else sys_path0 X +:+ "/data_types").
Proof.
  split; [|split].
  - intros H.
    assert (Hp : import_plugins X w =
      (Raise (NotADirectoryError (sys_path0 X +:+ "/plugins")), emit InvalidateCaches w)).
    { unfold import_plugins, scan_plugin_folder, scandir.
      rewrite (path_exists_resolve _ _ _ H), H. reflexivity. }
    split; [exact Hp|].
    unfold discover. unfold mbind at 1. unfold M_bind, bind. by rewrite Hp.
  - intros H. unfold import_data_types, scandir.
    rewrite (path_exists_resolve _ _ _ H), H. reflexivity.
  - reflexivity.
Qed.

Lemma root_not_a_directory_raises_witness :
  let X := Sample.env (3, 12) (Dir [("plugins", File); ("data_types", File)])
             Sample.url_only in
  let w := initial_world Sample.no_regs in
  fst (discover X w) = Raise (NotADirectoryError "/opt/sstimap/plugins") /\
  fst (import_data_types X w) = Raise (NotADirectoryError "/opt/sstimap/data_types").
Proof.
  intros X w.
  rewrite (proj2 (proj1 (root_not_a_directory_raises X w) eq_refl)).
  rewrite (proj1 (proj2 (root_not_a_directory_raises X w)) eq_refl).
  split; reflexivity.
Defined.

Lemma filter_is_dir_none (groups : list (string * node)) :
  Forall (fun group => is_dir (snd group) = false) groups ->
  filter (fun group => is_dir (snd group)) groups = [].
Proof.
  induction 1 as [|group groups Hg _ IH]; [reflexivity|].
  rewrite filter_cons, IH. by rewrite Hg.
Qed.

(** X6. Only directories under the plugin root are categories: when no
    entry of the root is a directory, whatever the names of the entries,
    the plugin loader invalidates the caches, imports nothing, prints
    nothing and returns with the registries as they were. *)
Theorem plugin_root_without_categories (X : externals) (w : world)
    (groups : list (string * node)) :
  resolve ["plugins"] (fs X) = Some (Dir groups) ->
  Forall (fun group => is_dir (snd group) = false) groups ->
  import_plugins X w = (Ret tt, emit InvalidateCaches w).
Proof.
  intros Hres Hfiles. unfold import_plugins, scan_plugin_folder.
  rewrite (path_exists_resolve _ _ _ Hres), (scandir_dir _ _ _ _ Hres). simpl.
  rewrite !ret_bind, (filter_is_dir_none _ Hfiles). reflexivity.
Qed.

Lemma plugin_root_without_categories_witness :
  let X := Sample.env (3, 12)
             (Dir [("plugins", Dir [("jinja2.py", File); ("README.md", File)])])
             Sample.url_only in
  let w := initial_world Sample.no_regs in
  import_plugins X w = (Ret tt, emit InvalidateCaches w).
Proof.
  intros X w.
  apply (plugin_root_without_categories X w
           [("jinja2.py", File); ("README.md", File)] eq_refl).
  repeat constructor.
Defined.

(** ** Import paths *)

Lemma loadable_stem (name : string) :
  loadable name = true -> slice_to_neg name 3 +:+ ".py" = name.
Proof.
  intros H. apply loadable_iff in H as [[stem ->] _].
  by rewrite slice_to_neg_py.
Qed.

Lemma slice_inj_loadable (n1 n2 : string) :
  loadable n1 = true -> loadable n2 = true ->
  slice_to_neg n1 3 = slice_to_neg n2 3 -> n1 = n2.
Proof.
  intros H1 H2 Heq.
  rewrite <- (loadable_stem n1 H1), <- (loadable_stem n2 H2). by rewrite Heq.
Qed.

Lemma unit_paths_NoDup (path_of : string -> string) (entries : list (string * node)) :
  (forall n1 n2, loadable n1 = true -> loadable n2 = true ->
                 path_of n1 = path_of n2 -> n1 = n2) ->
  NoDup (map fst entries) -> NoDup (unit_paths path_of entries).
Proof.
  intros Hinj Hnd. rewrite unit_paths_names.
  apply NoDup_fmap_2_strong; [|by apply NoDup_filter].
  intros n1 n2 H1 H2. apply Hinj.
  - apply list_elem_of_filter in H1 as [H1 _]. by apply Is_true_true.
  - apply list_elem_of_filter in H2 as [H2 _]. by apply Is_true_true.
Qed.

(** X7. The name of a selected entry is recovered from its import path:
    the stripped name followed by ".py" is the name again, so distinct
    selected entries of one directory get distinct import paths.  A
    directory whose entries have distinct names is therefore asked for each
    of its units once at most, by either loader. *)
Theorem import_paths_distinct :
  (forall name, loadable name = true -> slice_to_neg name 3 +:+ ".py" = name) /\
  (forall n1 n2, loadable n1 = true -> loadable n2 = true ->
     data_type_path n1 = data_type_path n2 -> n1 = n2) /\
  (forall group_name n1 n2, loadable n1 = true -> loadable n2 = true ->
     plugin_path group_name n1 = plugin_path group_name n2 -> n1 = n2) /\
  (forall files, NoDup (map fst files) -> NoDup (unit_paths data_type_path files)) /\
  (forall group_name es,
     NoDup (map fst es) -> NoDup (unit_paths (plugin_path group_name) es)).
Proof.
  assert (Hdt : forall n1 n2, loadable n1 = true -> loadable n2 = true ->
     data_type_path n1 = data_type_path n2 -> n1 = n2).
  { intros n1 n2 H1 H2 Heq. unfold data_type_path in Heq.
    apply (inj (String.append _)) in Heq. by apply slice_inj_loadable. }
  assert (Hpl : forall g n1 n2, loadable n1 = true -> loadable n2 = true ->
     plugin_path g n1 = plugin_path g n2 -> n1 = n2).
  { intros g n1 n2 H1 H2 Heq. unfold plugin_path in Heq.
    do 3 apply (inj (String.append _)) in Heq. by apply slice_inj_loadable. }
  split; [apply loadable_stem|]. split; [exact Hdt|]. split; [exact Hpl|].
  split.
  - intros files. by apply unit_paths_NoDup.
  - intros g es. apply unit_paths_NoDup. apply Hpl.
Qed.

Lemma import_paths_distinct_witness :
  NoDup (unit_paths data_type_path
           [("json.py", File); ("_helpers.py", File); ("form.py", File)]).
Proof.
  apply (proj1 (proj2 (proj2 (proj2 import_paths_distinct)))).
  apply (bool_decide_unpack _). vm_compute. exact I.
Defined.

(** ** The plugin loader and the directory tree *)

Lemma concat_map_cons {A B} (f : A -> list B) (x : A) (l : list A) :
  concat (map f (x :: l)) = f x ++ concat (map f l).
Proof. reflexivity. Qed.

Lemma assoc_find_NoDup (es : list (string * node)) (name : string) (x : node) :
  NoDup (map fst es) -> (name, x) ∈ es -> assoc_find name es = Some x.
Proof.
  induction es as [|[n y] es IH]; intros Hnd Hin; [by apply elem_of_nil in Hin|].
  simpl in *. apply NoDup_cons in Hnd as [Hn Hnd].
  apply elem_of_cons in Hin as [Heq|Hin].
  - injection Heq as -> ->. by rewrite String.eqb_refl.
  - destruct (String.eqb_spec n name) as [->|Hne]; [|by apply IH].
    exfalso. apply Hn. apply list_elem_of_fmap. by exists (name, x).
Qed.

Lemma resolve_below (t : node) (c name : string) (es : list (string * node)) :
  resolve [c] t = Some (Dir es) -> resolve [c; name] t = assoc_find name es.
Proof.
  destruct t as [|root]; simpl; [discriminate|].
  destruct (assoc_find c root) as [n|]; [|discriminate].
  intros H. injection H as ->. by destruct (assoc_find name es).
Qed.

Lemma plugin_unit_paths_tree (X : externals) (groups : list (string * node)) :
  resolve ["plugins"] (fs X) = Some (Dir groups) ->
  NoDup (map fst groups) ->
  plugin_unit_paths X groups = plugin_tree_paths groups.
Proof.
  intros Hres Hnd. unfold plugin_unit_paths, plugin_tree_paths.
  assert (Hfind : forall group, group ∈ groups ->
            resolve ["plugins"; fst group] (fs X) = Some (snd group)).
  { intros [n x] Hin. rewrite (resolve_below _ _ _ _ Hres).
    by apply assoc_find_NoDup. }
  clear Hres Hnd. induction groups as [|[name x] groups IH]; [reflexivity|].
  assert (Hg := Hfind (name, x) ltac:(by left)).
  assert (IH' := IH ltac:(intros g Hg'; apply Hfind; by right)).
  rewrite filter_cons. destruct x as [|es].
  - rewrite decide_False by (simpl; auto). by rewrite IH'.
  - rewrite decide_True by done.
    rewrite !concat_map_cons, IH'. unfold category_paths. simpl in *.
    by rewrite Hg.
Qed.

Lemma plugin_events_paths (X : externals) (groups : list (string * node)) :
  plugin_events X groups = map ImportModule (plugin_unit_paths X groups).
Proof.
  unfold plugin_events, plugin_unit_paths, plugin_group_events.
  generalize (filter (fun group : string * node => is_dir (snd group)) groups).
  intros gs. induction gs as [|group gs IH]; [reflexivity|].
  rewrite !concat_map_cons, map_app, IH. f_equal.
  by destruct (resolve _ _) as [[|es]|].
Qed.

(** X8. With distinct entry names under the plugin root, the plugin loader
    walks exactly two levels of the tree: after invalidating the caches it
    asks, category directory by category directory in enumeration order,
    for the selected entries of that directory's own listing, as
    "plugins.<category>.<unit>".  A file under the root contributes
    nothing, and nothing below a category's entries is looked at. *)
Theorem plugin_loader_walks_two_levels (X : externals)
    (groups : list (string * node)) :
  resolve ["plugins"] (fs X) = Some (Dir groups) ->
  NoDup (map fst groups) ->
  traces (import_plugins X)
         (InvalidateCaches :: map ImportModule (plugin_tree_paths groups)) /\
  (forall name, category_paths (name, File) = []) /\
  (forall name es,
     category_paths (name, Dir es) =
     map (plugin_path name) (filter (fun n => loadable n) (map fst es))).
Proof.
  intros Hres Hnd. split; [|split].
  - rewrite <- (plugin_unit_paths_tree X groups Hres Hnd), <- plugin_events_paths.
    by apply traces_import_plugins.
  - reflexivity.
  - intros name es. unfold category_paths. simpl. apply unit_paths_names.
Qed.

Lemma plugin_loader_walks_two_levels_witness :
  let X := Sample.env (3, 12) Sample.tree Sample.url_only in
  trace (snd (import_plugins X (initial_world Sample.no_regs))) =
    [InvalidateCaches; ImportModule "plugins.engines.jinja2";
     ImportModule "plugins.engines.mako"; ImportModule "plugins.languages.php"].
Proof.
  intros X.
  refine (proj2 (proj1 (plugin_loader_walks_two_levels X _ eq_refl _)
                   (initial_world Sample.no_regs)) tt eq_refl).
  apply (bool_decide_unpack _). vm_compute. exact I.
Defined.

(** ** Registries and imports *)

Lemma import_effects_app (X : externals) (p1 p2 : list string) (r : registries) :
  import_effects X (p1 ++ p2) r = import_effects X p2 (import_effects X p1 r).
Proof. apply foldl_app. Qed.

Section Registers.

Context {A B : Type} (X : externals).
Implicit Types (m : M A) (k : A -> M B).

Lemma registers_ret (a : A) : registers X (ret a) [].
Proof. intros w. exists 0%nat. by repeat split. Qed.

Lemma registers_raise (e : exn) (paths : list string) :
  registers X (raise (A := A) e) paths.
Proof.
  intros w. exists 0%nat. rewrite take_0. repeat split; [lia | discriminate].
Qed.

Lemma registers_bind m k (p1 p2 : list string) :
  registers X m p1 -> (forall a, registers X (k a) p2) ->
  registers X (m ≫= k) (p1 ++ p2).
Proof.
  intros Hm Hk w. unfold mbind, M_bind, bind.
  destruct (Hm w) as (n1 & Hn1 & Hr1 & Hret1).
  destruct (m w) as [[a|e] w1]; simpl in *.
  - rewrite (Hret1 a eq_refl), firstn_all in Hr1.
    destruct (Hk a w1) as (n2 & Hn2 & Hr2 & Hret2).
    exists (length p1 + n2)%nat. rewrite length_app. split; [lia|]. split.
    + by rewrite Hr2, Hr1, take_app_add, import_effects_app.
    + intros b Hb. by rewrite (Hret2 b Hb).
  - exists n1. rewrite length_app. split; [lia|].
    split; [by rewrite take_app_le | discriminate].
Qed.

Lemma registers_bind_nil m k (p : list string) :
  registers X m p -> (forall a, registers X (k a) []) -> registers X (m ≫= k) p.
Proof.
  intros Hm Hk. rewrite <- (app_nil_r p). by apply registers_bind.
Qed.

End Registers.

Lemma registers_tell (X : externals) (e : event) : registers X (tell e) [].
Proof. intros w. exists 0%nat. by repeat split. Qed.

Lemma registers_get_regs (X : externals) : registers X get_regs [].
Proof. intros w. exists 0%nat. by repeat split. Qed.

Lemma registers_import (X : externals) (path : string) :
  registers X (importlib_import_module X path) [path].
Proof.
  intros w. exists 1%nat. unfold importlib_import_module. simpl.
  destruct (import_module X path (regs w)) as [r [e|]]; by repeat split.
Qed.

Lemma registers_for_each {A} (X : externals) (l : list A) (body : A -> M unit)
    (paths : A -> list string) :
  (forall x, registers X (body x) (paths x)) ->
  registers X (for_each l body) (concat (map paths l)).
Proof.
  intros Hbody. induction l as [|x l IH]; simpl.
  - apply registers_ret.
  - apply registers_bind; [apply Hbody | intros _; apply IH].
Qed.

Lemma registers_load_loop (X : externals) (path_of : string -> string)
    (entries : list (string * node)) :
  registers X
    (for_each entries (fun entry =>
       when (endswith (fst entry) ".py" && negb (startswith (fst entry) "_"))
         (importlib_import_module X (path_of (fst entry)))))
    (unit_paths path_of entries).
Proof.
  induction entries as [|entry entries IH]; [apply registers_ret|].
  unfold unit_paths in *. rewrite filter_cons.
  cbn [for_each]. fold (loadable (fst entry)).
  destruct (loadable (fst entry)) eqn:Hl; simpl.
  - apply (registers_bind _ _ _ [path_of (fst entry)]);
      [apply registers_import | intros _; apply IH].
  - apply (registers_bind _ _ _ []); [apply registers_ret | intros _; apply IH].
Qed.

Lemma registers_import_data_types (X : externals) (files : list (string * node)) :
  resolve ["data_types"] (fs X) = Some (Dir files) ->
  registers X (import_data_types X) (unit_paths data_type_path files).
Proof.
  intros Hres. unfold import_data_types.
  rewrite (path_exists_resolve _ _ _ Hres), (scandir_dir _ _ _ _ Hres). simpl.
  rewrite ret_bind.
  apply (registers_bind _ _ _ []); [apply registers_tell|]. intros _.
  apply (registers_load_loop X data_type_path).
Qed.

Lemma registers_import_plugins (X : externals) (groups : list (string * node)) :
  resolve ["plugins"] (fs X) = Some (Dir groups) ->
  registers X (import_plugins X) (plugin_unit_paths X groups).
Proof.
  intros Hres. unfold import_plugins, scan_plugin_folder.
  rewrite (path_exists_resolve _ _ _ Hres), (scandir_dir _ _ _ _ Hres). simpl.
  rewrite !ret_bind.
  apply (registers_bind _ _ _ []); [apply registers_tell|]. intros _.
  unfold plugin_unit_paths.
  apply registers_for_each. intros group. unfold scandir.
  destruct (resolve ["plugins"; fst group] (fs X)) as [[|es]|].
  - rewrite raise_bind. apply registers_raise.
  - rewrite ret_bind. apply (registers_load_loop X (plugin_path (fst group))).
  - rewrite raise_bind. apply registers_raise.
Qed.

Lemma registers_print_plugin_summary (X : externals) :
  registers X print_plugin_summary [].
Proof. intros w. exists 0%nat. by repeat split. Qed.

Lemma registers_print_data_type_summary (X : externals) :
  registers X print_data_type_summary [].
Proof. intros w. exists 0%nat. by repeat split. Qed.

(** X9. The discovery step changes the registries through the imports and
    through nothing else: when it returns, the registries are those the
    imports of the selected plugin units, followed by those of the selected
    data-type units, leave behind, each import starting from the registries
    the one before left; when it raises, only an initial part of these
    imports has run. *)
Theorem discovery_registers_imports (X : externals) (w : world)
    (groups files : list (string * node)) :
  resolve ["plugins"] (fs X) = Some (Dir groups) ->
  resolve ["data_types"] (fs X) = Some (Dir files) ->
  let paths := plugin_unit_paths X groups ++ unit_paths data_type_path files in
  registers X (discover X) paths /\
  (fst (discover X w) = Ret tt ->
   regs (snd (discover X w)) = import_effects X paths (regs w)).
Proof.
  intros Hp Hd paths.
  assert (Hreg : registers X (discover X) paths).
  { unfold discover. subst paths.
    apply registers_bind; [by apply registers_import_plugins|]. intros _.
    apply (registers_bind _ _ _ [] (unit_paths data_type_path files));
      [apply registers_print_plugin_summary|].
    intros _.
    apply registers_bind_nil; [by apply registers_import_data_types|]. intros _.
    apply registers_print_data_type_summary. }
  split; [exact Hreg|].
  intros Hret. destruct (Hreg w) as (n & Hn & Hr & Hall).
  by rewrite Hr, (Hall tt Hret), firstn_all.
Qed.

Lemma discovery_registers_imports_witness :
  let X := Sample.env (3, 12) Sample.tree Sample.url_only in
  let w := initial_world Sample.no_regs in
  regs (snd (discover X w)) =
  import_effects X
    ["plugins.engines.jinja2"; "plugins.engines.mako"; "plugins.languages.php";
     "data_types.json"; "data_types.form"] (regs w).
Proof.
  intros X w.
  exact (proj2 (discovery_registers_imports X w _ _ eq_refl eq_refl) eq_refl).
Defined.

Lemma emits_data_type_step (X : externals) :
  emits (fun _ => True) (import_data_types X ;; print_data_type_summary).
Proof.
  unfold import_data_types, print_data_type_summary, print, log_log.
  repeat (apply emits_bind; [|intros ?]);
    repeat match goal with
           | |- emits _ (if ?c then _ else _) => destruct c
           end;
    auto 10 with emits.
Qed.

Lemma discover_after_plugins (X : externals) (w w1 : world) :
  import_plugins X w = (Ret tt, w1) ->
  discover X w =
  (import_data_types X ;; print_data_type_summary)
    (emit (Log 26 ("Loaded plugins by categories: " +:+
             join "; " (map plugin_fragment (loaded_plugins (regs w1))))) w1).
Proof.
  intros H. unfold discover. unfold mbind at 1. unfold M_bind. unfold bind at 1.
  rewrite H. reflexivity.
Qed.

(** X10. The plugin summary is taken between the two loaders: when the
    plugin loader returns, the summary line that follows its imports shows
    the plugin registry as those imports left it, before any data-type unit
    is imported. *)
Theorem plugin_summary_follows_plugin_imports (X : externals) (w : world)
    (groups : list (string * node)) :
  resolve ["plugins"] (fs X) = Some (Dir groups) ->
  fst (import_plugins X w) = Ret tt ->
  exists rest,
    trace (snd (discover X w)) =
      trace w ++
      (InvalidateCaches :: map ImportModule (plugin_unit_paths X groups)) ++
      Log 26 ("Loaded plugins by categories: " +:+
              join "; " (map plugin_fragment
                (loaded_plugins
                   (import_effects X (plugin_unit_paths X groups) (regs w))))) ::
      rest.
Proof.
  intros Hres Hret.
  destruct (traces_import_plugins X groups Hres w) as [_ Htr].
  destruct (registers_import_plugins X groups Hres w) as (n & _ & Hr & Hall).
  specialize (Htr tt Hret). rewrite (Hall tt Hret), firstn_all in Hr.
  rewrite plugin_events_paths in Htr.
  destruct (import_plugins X w) as [[[]|e] w1] eqn:Hrun; [|discriminate].
  simpl in *. rewrite (discover_after_plugins X w w1 Hrun).
  destruct (emits_data_type_step X
              (emit (Log 26 ("Loaded plugins by categories: " +:+
                 join "; " (map plugin_fragment (loaded_plugins (regs w1))))) w1))
    as (rest & Hrest & _).
  exists rest. rewrite Hrest. simpl. rewrite Htr, Hr.
  by rewrite <- !app_assoc.
Qed.

Lemma plugin_summary_follows_plugin_imports_witness :
  let X := Sample.env (3, 12) Sample.tree Sample.url_only in
  let w := initial_world Sample.no_regs in
  exists rest,
    trace (snd (discover X w)) =
      [InvalidateCaches; ImportModule "plugins.engines.jinja2";
       ImportModule "plugins.engines.mako"; ImportModule "plugins.languages.php";
       Log 26 "Loaded plugins by categories: all: 3"] ++ rest.
Proof.
  intros X w.
  destruct (plugin_summary_follows_plugin_imports X w _ eq_refl eq_refl)
    as [rest Hrest].
  exists rest. rewrite Hrest. vm_compute. reflexivity.
Defined.

(** ** A failing import *)

Lemma load_loop_flat (X : externals) (path_of : string -> string)
    (entries : list (string * node)) :
  for_each entries (fun entry =>
    when (endswith (fst entry) ".py" && negb (startswith (fst entry) "_"))
      (importlib_import_module X (path_of (fst entry))))
  = for_each (unit_paths path_of entries) (importlib_import_module X).
Proof.
  induction entries as [|entry entries IH]; [reflexivity|].
  unfold unit_paths in *. rewrite filter_cons.
  cbn [for_each]. fold (loadable (fst entry)).
  destruct (loadable (fst entry)); simpl; rewrite IH; reflexivity.
Qed.

Lemma importlib_import_module_returns (X : externals) (path : string) (w : world) :
  (forall r, snd (import_module X path r) = None) ->
  importlib_import_module X path w =
  (Ret tt, {| trace := trace w ++ [ImportModule path];
              regs := import_effects X [path] (regs w) |}).
Proof.
  intros H. unfold importlib_import_module, import_effects. simpl.
  specialize (H (regs w)). by destruct (import_module X path (regs w)) as [r [e|]].
Qed.

Lemma importlib_import_module_raises (X : externals) (path : string) (e : exn)
    (w : world) :
  (forall r, snd (import_module X path r) = Some e) ->
  importlib_import_module X path w =
  (Raise e, {| trace := trace w ++ [ImportModule path];
               regs := import_effects X [path] (regs w) |}).
Proof.
  intros H. unfold importlib_import_module, import_effects. simpl.
  specialize (H (regs w)).
  destruct (import_module X path (regs w)) as [r [e'|]]; simpl in *; congruence.
Qed.

Lemma import_all_stops (X : externals) (pre post : list string) (p : string)
    (e : exn) (w : world) :
  (forall q, q ∈ pre -> forall r, snd (import_module X q r) = None) ->
  (forall r, snd (import_module X p r) = Some e) ->
  for_each (pre ++ p :: post) (importlib_import_module X) w =
  (Raise e, {| trace := trace w ++ map ImportModule (pre ++ [p]);
               regs := import_effects X (pre ++ [p]) (regs w) |}).
Proof.
  intros Hpre Hp. revert w.
  induction pre as [|q pre IH]; intros w; simpl.
  - unfold mbind, M_bind, bind. by rewrite (importlib_import_module_raises X p e w Hp).
  - unfold mbind, M_bind, bind.
    rewrite (importlib_import_module_returns X q w) by (apply Hpre; by left).
    rewrite IH by (intros q' Hq'; apply Hpre; by right).
    simpl. by rewrite <- app_assoc.
Qed.

(** X11. The data-type loader stops at the first import that raises: when
    the imports of the selected units before [p] return and the import of
    [p] raises [e], the loader raises [e] right after asking for [p]; the
    units after [p] are never asked for, and what [p] and the units before
    it registered stays in the registries. *)
Theorem first_failing_import_stops_loader (X : externals) (w : world)
    (files : list (string * node)) (pre post : list string) (p : string) (e : exn) :
  resolve ["data_types"] (fs X) = Some (Dir files) ->
  unit_paths data_type_path files = pre ++ p :: post ->
  (forall q, q ∈ pre -> forall r, snd (import_module X q r) = None) ->
  (forall r, snd (import_module X p r) = Some e) ->
  import_data_types X w =
    (Raise e,
     {| trace := trace w ++ InvalidateCaches :: map ImportModule (pre ++ [p]);
        regs := import_effects X (pre ++ [p]) (regs w) |}).
Proof.
  intros Hres Hpaths Hpre Hp. unfold import_data_types.
  rewrite (path_exists_resolve _ _ _ Hres), (scandir_dir _ _ _ _ Hres). simpl.
  rewrite ret_bind, (load_loop_flat X data_type_path), Hpaths.
  unfold mbind, M_bind, bind, tell.
  rewrite (import_all_stops X pre post p e _ Hpre Hp). simpl.
  by rewrite <- app_assoc.
Qed.

Lemma first_failing_import_stops_loader_witness :
  let X := Sample.failing_env (3, 12) Sample.tree Sample.url_only
             "data_types.json" (OtherError "ImportError" "boom") in
  let w := initial_world Sample.no_regs in
  trace (snd (import_data_types X w)) =
    [InvalidateCaches; ImportModule "data_types.json"].
Proof.
  intros X w.
  rewrite (first_failing_import_stops_loader X w _ [] ["data_types.form"]
             "data_types.json" (OtherError "ImportError" "boom") eq_refl eq_refl).
  - reflexivity.
  - intros q Hq. by apply elem_of_nil in Hq.
  - reflexivity.
Defined.

(** ** The exit status *)

Lemma exit_code_status_range (code : exit_code) :
  0 <= exit_code_status code < 256.
Proof.
  destruct code as [|z|shown]; simpl; [lia| |lia].
  destruct ((- 2 ^ 63 <=? z) && (z <? 2 ^ 63)); [|lia].
  apply Z.mod_pos_bound. lia.
Qed.

(** X12. The exit status of the script, by what the guarded body does: 0
    when it returns, when it raises [KeyboardInterrupt] and when it raises
    [EOFError]; the status of the [SystemExit] it raises (0 for [None], the
    low eight bits of an integer that fits a [long], 1 for another object);
    1 for anything else.  The status always lies from 0 to 255, and an
    integer code from 0 to 255 is its own status. *)
Theorem exit_status_table (X : externals) (w : world) :
  exit_status (fst (dunder_main X w)) =
    match fst (guarded X w) with
    | Ret _ | Raise KeyboardInterrupt | Raise (EOFError _) => 0
    | Raise (SystemExit code) => exit_code_status code
    | Raise _ => 1
    end /\
  (exit_status (fst (dunder_main X w)) = 0 <->
   fst (guarded X w) = Ret tt \/
   (exists e, fst (guarded X w) = Raise e /\
      (e = KeyboardInterrupt \/ is_EOFError e = true \/
       exists code, e = SystemExit code /\ exit_code_status code = 0))) /\
  0 <= exit_status (fst (dunder_main X w)) < 256 /\
  (forall z : Z, 0 <= z < 256 -> exit_code_status z = z) /\
  (forall z : Z, - 2 ^ 63 <= z < 2 ^ 63 -> exit_code_status z = z mod 256).
Proof.
  assert (H : exit_status (fst (dunder_main X w)) =
    match fst (guarded X w) with
    | Ret _ | Raise KeyboardInterrupt | Raise (EOFError _) => 0
    | Raise (SystemExit code) => exit_code_status code
    | Raise _ => 1
    end).
  { unfold dunder_main, try_except.
    destruct (guarded X w) as [[[]|e] w']; [reflexivity|].
    by destruct e. }
  assert (Hlong : forall z : Z, - 2 ^ 63 <= z < 2 ^ 63 -> exit_code_status z = z mod 256).
  { intros z Hz. simpl.
    destruct (Z.leb_spec (- 2 ^ 63) z); [|lia].
    by destruct (Z.ltb_spec z (2 ^ 63)); [|lia]. }
  split; [exact H|]. split; [|split; [|split; [|exact Hlong]]].
  - rewrite H. clear H.
    destruct (guarded X w) as [[[]|e] w']; simpl.
    + split; [by left | done].
    + split.
      * intros He. right. exists e. split; [done|].
        destruct e; simpl in *; try discriminate; eauto.
      * intros [Hr|(e' & Heq & He')]; [discriminate|].
        injection Heq as <-.
        destruct He' as [->|[He'|(code & -> & Hc)]]; try done. by destruct e.
  - rewrite H. clear H.
    destruct (guarded X w) as [[[]|e] w']; simpl; [lia|].
    destruct e; try lia. apply exit_code_status_range.
  - intros z Hz. rewrite Hlong by lia. apply Z.mod_small. lia.
Qed.

(** X13. An exception outside [Exception] other than [KeyboardInterrupt]
    (a [SystemExit] raised while a unit is imported, say) meets no clause
    of the top-level [try]: it leaves the script as it is, with no farewell
    and no critical or debug log. *)
Theorem base_exception_passes_unlogged (X : externals) (w w' : world) (e : exn) :
  guarded X w = (Raise e, w') ->
  is_Exception e = false ->
  is_KeyboardInterrupt e = false ->
  dunder_main X w = (Raise e, w').
Proof.
  intros Hrun Hexc Hkbd. unfold dunder_main, try_except. rewrite Hrun.
  by destruct e.
Qed.

Lemma base_exception_passes_unlogged_witness :
  let X := Sample.failing_env (3, 12) Sample.tree Sample.url_only
             "plugins.engines.jinja2" (SystemExit 0) in
  let w := initial_world Sample.no_regs in
  exit_status (fst (dunder_main X w)) = 0 /\
  last (trace (snd (dunder_main X w))) = Some (ImportModule "plugins.engines.jinja2").
Proof.
  intros X w.
  rewrite (base_exception_passes_unlogged X w (snd (guarded X w)) (SystemExit 0)
             ltac:(vm_compute; reflexivity) eq_refl eq_refl).
  vm_compute. split; reflexivity.
Defined.

Lemma for_each_app {A} (a b : list A) (g : A -> M unit) (w : world) :
  for_each (a ++ b) g w = (for_each a g ;; for_each b g) w.
Proof.
  revert w. induction a as [|x a IH]; intros w; [reflexivity|].
  simpl. unfold mbind, M_bind, bind in *.
  destruct (g x w) as [[[]|e] w1]; [apply IH | reflexivity].
Qed.

Lemma plugin_loop_flat (X : externals) (gs : list (string * node)) (w : world) :
  Forall (fun group => exists es,
            resolve ["plugins"; fst group] (fs X) = Some (Dir es)) gs ->
  for_each gs (fun group =>
    module_entries ← scandir X ["plugins"; fst group]
                       (path_join (path_join (sys_path0 X) "plugins") (fst group));
    for_each module_entries (fun entry =>
      when (endswith (fst entry) ".py" && negb (startswith (fst entry) "_"))
        (importlib_import_module X
           ("plugins." +:+ fst group +:+ "." +:+ slice_to_neg (fst entry) 3)))) w
  = for_each
      (concat (map (fun group =>
                      match resolve ["plugins"; fst group] (fs X) with
                      | Some (Dir es) => unit_paths (plugin_path (fst group)) es
                      | _ => []
                      end) gs))
      (importlib_import_module X) w.
Proof.
  intros Hgs. revert w.
  induction Hgs as [|group gs [es Hes] _ IH]; intros w; [reflexivity|].
  rewrite concat_map_cons, for_each_app. cbn [for_each].
  rewrite (scandir_dir _ _ _ _ Hes), ret_bind, Hes.
  rewrite (load_loop_flat X (plugin_path (fst group))).
  unfold mbind, M_bind, bind.
  destruct (for_each _ (importlib_import_module X) w) as [[[]|e] w1];
    [apply IH | reflexivity].
Qed.

Lemma import_plugins_flat (X : externals) (groups : list (string * node)) (w : world) :
  resolve ["plugins"] (fs X) = Some (Dir groups) ->
  NoDup (map fst groups) ->
  import_plugins X w =
  for_each (plugin_tree_paths groups) (importlib_import_module X)
           (emit InvalidateCaches w).
Proof.
  intros Hres Hnd.
  rewrite <- (plugin_unit_paths_tree X groups Hres Hnd).
  unfold import_plugins, scan_plugin_folder.
  rewrite (path_exists_resolve _ _ _ Hres), (scandir_dir _ _ _ _ Hres). simpl.
  rewrite !ret_bind. unfold mbind at 1. unfold M_bind, bind, tell.
  apply plugin_loop_flat.
  apply Forall_forall. intros [name x] Hin.
  apply list_elem_of_filter in Hin as [Hdir Hin].
  destruct x as [|es]; [done|]. exists es. cbn [fst].
  rewrite (resolve_below _ _ _ _ Hres). by apply assoc_find_NoDup.
Qed.

(** ** What a loader does, import by import *)










(** X14. The plugin loader stops at the first import that raises, across
    categories: with distinct names under the root, when the imports of the
    units before [p] return and the import of [p] raises [e], the loader
    raises [e] right after asking for [p]; the remaining units of that
    category and all later categories are never asked for. *)
Theorem first_failing_plugin_stops_loader (X : externals) (w : world)
    (groups : list (string * node)) (pre post : list string) (p : string) (e : exn) :
  resolve ["plugins"] (fs X) = Some (Dir groups) ->
  NoDup (map fst groups) ->
  plugin_tree_paths groups = pre ++ p :: post ->
  (forall q, q ∈ pre -> forall r, snd (import_module X q r) = None) ->
  (forall r, snd (import_module X p r) = Some e) ->
  import_plugins X w =
    (Raise e,
     {| trace := trace w ++ InvalidateCaches :: map ImportModule (pre ++ [p]);
        regs := import_effects X (pre ++ [p]) (regs w) |}) /\
  discover X w = import_plugins X w.
Proof.
  intros Hres Hnd Hpaths Hpre Hp.
  assert (Hrun : import_plugins X w =
    (Raise e,
     {| trace := trace w ++ InvalidateCaches :: map ImportModule (pre ++ [p]);
        regs := import_effects X (pre ++ [p]) (regs w) |})).
  { rewrite (import_plugins_flat X groups w Hres Hnd), Hpaths.
    rewrite (import_all_stops X pre post p e _ Hpre Hp). simpl.
    by rewrite <- app_assoc. }
  split; [exact Hrun|].
  unfold discover. unfold mbind at 1. unfold M_bind, bind. by rewrite Hrun.
Qed.

Lemma first_failing_plugin_stops_loader_witness :
  let X := Sample.failing_env (3, 12) Sample.tree Sample.url_only
             "plugins.engines.mako" (OtherError "ImportError" "boom") in
  let w := initial_world Sample.no_regs in
  trace (snd (discover X w)) =
    [InvalidateCaches; ImportModule "plugins.engines.jinja2";
     ImportModule "plugins.engines.mako"].
Proof.
  intros X w.
  destruct (first_failing_plugin_stops_loader X w _
              ["plugins.engines.jinja2"] ["plugins.languages.php"]
              "plugins.engines.mako" (OtherError "ImportError" "boom")
              eq_refl
              ltac:(apply (bool_decide_unpack _); vm_compute; exact I)
              eq_refl) as [Hrun Hdisc].
  - intros q Hq r. apply list_elem_of_singleton in Hq as ->. reflexivity.
  - reflexivity.
  - by rewrite Hdisc, Hrun.
Defined.

(** ** A whole run without extension roots *)

(** X15. A scan is launched even when neither extension root exists: with
    a validated Python 3 version, both roots missing and a bundle that
    selects a scan, the guarded body prints the banner and the two
    warnings, logs both summaries, and calls the scan engine with the
    assembled bundle and the registries as they were at the start; it
    raises what the scan engine raises and returns otherwise. *)
Theorem scan_without_extension_roots (X : externals) (w : world) :
  fst (version_info X) = 3 ->
  6 <= snd (version_info X) <= 13 ->
  path_exists X ["plugins"] = false ->
  path_exists X ["data_types"] = false ->
  select_mode_spec (config_args X (cliparser_options X)) = Scan ->
  let colour := dict_get_default (assembled X) "colour" (PBool true) in
  guarded X w =
    (match scan_website X (assembled X) (regs w) with
     | Some e => Raise e
     | None => Ret tt
     end,
     {| trace := trace w ++
          [ConfigArgs (cliparser_options X);
           SetFormatterColour colour;
           Print (banner_line X colour);
           InvalidateCaches;
           Print ("[!] Plugin directory not found: " +:+ sys_path0 X +:+ "/plugins");
           Log 26 ("Loaded plugins by categories: " +:+
                   join "; " (map plugin_fragment (loaded_plugins (regs w))));
           InvalidateCaches;
           Print "[!] data_types directory missing!";
           Log 26 ("Loaded request body types: " +:+
                   pretty (size (loaded_data_types (regs w))) +:+ NL);
           Log 23 "Starting SSTI scan using predefined configuration...";
           ScanWebsite (assembled X)];
        regs := regs w |}).
Proof.
  intros Hmaj Hmin Hp Hd Hmode colour. subst colour.
  unfold guarded, main. unfold mbind at 1. unfold M_bind. unfold bind at 1.
  rewrite check_python_version_run.
  destruct (Z.eqb_spec (fst (version_info X)) 3) as [_|?]; [simpl|lia].
  destruct (Z.ltb_spec (snd (version_info X)) 6); [lia|].
  destruct (Z.ltb_spec 13 (snd (version_info X))); [lia|].
  unfold mbind at 1. unfold M_bind. unfold bind at 1. rewrite assemble_run.
  unfold mbind at 1. unfold M_bind. unfold bind at 1.
  unfold discover. unfold mbind at 1. unfold M_bind. unfold bind at 1.
  unfold import_plugins, scan_plugin_folder. rewrite Hp.
  unfold import_data_types. rewrite Hd.
  rewrite route_enter_mode, select_mode_spec_assembled, Hmode.
  unfold enter_mode, launch_scan, call, print_plugin_summary,
    print_data_type_summary, log_log, print, get_regs, tell, emit,
    mbind, M_bind, bind, ret. simpl.
  rewrite <- !app_assoc. simpl.
  by destruct (scan_website X (assembled X) (regs w)).
Qed.

Lemma scan_without_extension_roots_witness :
  let X := Sample.env (3, 12) (Dir [("sstimap.py", File)]) Sample.url_only in
  let w := initial_world Sample.no_regs in
  fst (guarded X w) = Ret tt /\ regs (snd (guarded X w)) = regs w.
Proof.
  intros X w.
  rewrite (scan_without_extension_roots X w eq_refl ltac:(simpl; lia)
             eq_refl eq_refl eq_refl).
  split; reflexivity.
Defined.
